(** * scene-text-recognition: utilities

    A shallow embedding of [src/utils/gdrive_downloader.py] (class
    [GDriveDownloader]) and [src/utils/memory_tracker.py] (class
    [MemoryTracker] and [safe_to_device]), and the properties of the
    download / extract / cleanup pipeline and of the device-transfer guard.

    Layout: Part I holds the definitions (Python strings, exceptions, the
    program monad, the two source files, and an in-memory file system that
    interprets the file-system calls); Part II holds the lemmas and theorems
    about the public operations; Part III holds further properties of the
    two files. *)

From Stdlib Require Import String Ascii List ZArith Lia Bool Arith.
From Stdlib Require Import DecimalString.
From Stdlib Require DecimalZ DecimalPos.
Import ListNotations.

Local Open Scope list_scope.
Local Open Scope string_scope.

(* ===================================================================== *)
(** * Part I. Definitions *)
(* ===================================================================== *)

(** ** Python strings

    A Python [str] is a [string]. The separators and needles of the source
    are ASCII literals. *)

(** [s.startswith(p)]. *)
Fixpoint starts_with (p s : string) : bool :=
  match p with
  | EmptyString => true
  | String a p' =>
      match s with
      | EmptyString => false
      | String b s' => Ascii.eqb a b && starts_with p' s'
      end
  end.

(** [sub in s] for two strings. *)
Fixpoint contains (sub s : string) : bool :=
  starts_with sub s ||
  match s with
  | EmptyString => false
  | String _ s' => contains sub s'
  end.

(** [s.split(sep)] for a non-empty [sep] (Python raises [ValueError] on an
    empty one; every separator in the source is a non-empty literal): the
    string is scanned from the left, [skip] counts the characters of a matched
    separator still to be skipped and [cur] is the piece being collected. *)
Fixpoint split_from (sep : string) (skip : nat) (cur s : string) : list string :=
  match s with
  | EmptyString => [cur]
  | String c s' =>
      match skip with
      | S k => split_from sep k cur s'
      | O =>
          if starts_with sep s
          then cur :: split_from sep (String.length sep - 1) "" s'
          else split_from sep 0 (cur ++ String c "") s'
      end
  end.

Definition split (s sep : string) : list string := split_from sep 0 "" s.

(** Truthiness of an [Optional[str]]: [None] and [""] are falsy. *)
Definition truthy (o : option string) : bool :=
  match o with
  | None => false
  | Some s => negb (s =? "")
  end.

(** [str(n)] for an integer. *)
Definition str_of_int (n : Z) : string := NilZero.string_of_int (Z.to_int n).

(** [fnmatch] restricted to literal characters, [?] and [*], which is what
    [Path.glob] applies to each directory entry name. The inner loop lets a
    star absorb zero or more characters. *)
Fixpoint fnmatch (pat name : string) : bool :=
  match pat with
  | EmptyString => match name with EmptyString => true | _ => false end
  | String p pat' =>
      if Ascii.eqb p "*" then
        (fix star (n : string) : bool :=
           fnmatch pat' n ||
           match n with
           | EmptyString => false
           | String _ n' => star n'
           end) name
      else
        match name with
        | EmptyString => false
        | String c name' =>
            (Ascii.eqb p "?" || Ascii.eqb p c) && fnmatch pat' name'
        end
  end.

(** ** Exceptions

    The instances of [Exception] the two files distinguish in their [except]
    clauses. [exn_text] is [str(e)]. Exceptions outside [Exception]
    ([KeyboardInterrupt], [SystemExit]) are asynchronous and not modelled, so
    an [except Exception] clause catches every [Exn]. *)
Inductive ExnClass : Type :=
| BadZipFile
| RuntimeError
| OSError
| IndexError
| OtherException.

Record Exn : Type := mkExn { exn_class : ExnClass; exn_text : string }.

Definition is_BadZipFile (e : Exn) : bool :=
  match exn_class e with BadZipFile => true | _ => false end.

Definition is_RuntimeError (e : Exn) : bool :=
  match exn_class e with RuntimeError => true | _ => false end.

(** What a call into the environment, or a whole operation, comes back with. *)
Inductive Outcome (A : Type) : Type :=
| Returned (a : A)
| Raised (e : Exn).
Arguments Returned {A} a.
Arguments Raised {A} e.

(** [l[i]]: raises [IndexError] out of range. *)
Definition py_index {A : Type} (l : list A) (i : nat) : Outcome A :=
  match nth_error l i with
  | Some x => Returned x
  | None => Raised (mkExn IndexError "list index out of range")
  end.

(** ** Programs

    Code that talks to its environment (file system, network, zip reader,
    clock, logger, CUDA runtime) is a tree: it returns, raises, or performs a
    call [c] and continues with the environment's response, of type
    [resp c]. *)
Section Programs.
Context {call : Type} {resp : call -> Type}.

Inductive Prog (A : Type) : Type :=
| Ret (a : A)
| Throw (e : Exn)
| Vis (c : call) (k : resp c -> Prog A).
Arguments Ret {A} a.
Arguments Throw {A} e.
Arguments Vis {A} c k.

Fixpoint bind {A B : Type} (p : Prog A) (f : A -> Prog B) : Prog B :=
  match p with
  | Ret a => f a
  | Throw e => Throw e
  | Vis c k => Vis c (fun r => bind (k r) f)
  end.

(** [try: p  except ...: h]. The handler [h] says, from the exception,
    whether one of its clauses matches and what that clause runs; an
    exception no clause matches, or one raised inside a clause,
    propagates. *)
Fixpoint try_except {A : Type} (p : Prog A) (h : Exn -> option (Prog A)) : Prog A :=
  match p with
  | Ret a => Ret a
  | Throw e => match h e with Some q => q | None => Throw e end
  | Vis c k => Vis c (fun r => try_except (k r) h)
  end.

(** A pure computation that may raise. *)
Definition lift {A : Type} (o : Outcome A) : Prog A :=
  match o with
  | Returned a => Ret a
  | Raised e => Throw e
  end.

(** One observed interaction: the call and the response it got. *)
Definition Event : Type := { c : call & resp c }.

(** An environment over states [W] answers each call and moves on. *)
Definition Handler (W : Type) : Type := forall c : call, W -> resp c * W.

Fixpoint run {W A : Type} (h : Handler W) (p : Prog A) (w : W) : Outcome A * W :=
  match p with
  | Ret a => (Returned a, w)
  | Throw e => (Raised e, w)
  | Vis c k => let (r, w') := h c w in run h (k r) w'
  end.

Fixpoint trace {W A : Type} (h : Handler W) (p : Prog A) (w : W) : list Event :=
  match p with
  | Ret _ => []
  | Throw _ => []
  | Vis c k => let (r, w') := h c w in existT _ c r :: trace h (k r) w'
  end.
End Programs.

Arguments Prog {call} resp A.
Arguments Ret {call resp A} a.
Arguments Throw {call resp A} e.
Arguments Vis {call resp A} c k.
Arguments Event {call} resp.
Arguments Handler {call} resp W.

Declare Scope prog_scope.
Delimit Scope prog_scope with prog.
Notation "x <- p ;; q" := (bind p (fun x => q))
  (at level 100, p at next level, right associativity) : prog_scope.
Notation "p ;; q" := (bind p (fun _ => q))
  (at level 100, right associativity) : prog_scope.

(* --------------------------------------------------------------------- *)
(** ** [src/utils/gdrive_downloader.py] *)
(* --------------------------------------------------------------------- *)

(** A [pathlib.Path] is its list of components. *)
Definition Path : Type := list string.

Definition path_str (p : Path) : string := String.concat "/" p.   (* str(p) *)
Definition parent (p : Path) : Path := removelast p.              (* p.parent *)
Definition name (p : Path) : string := last p "".                 (* p.name *)
Definition joinpath (p : Path) (child : string) : Path := (p ++ [child])%list.  (* p / child *)

Definition path_eq_dec : forall p q : Path, {p = q} + {p <> q} :=
  list_eq_dec String.string_dec.

(** A [zipfile.ZipInfo], as far as the source reads it. *)
Record ZipInfo : Type := mkZipInfo { filename : string; file_size : Z }.

(** An [os.stat_result], as far as the source reads it. Timestamps are whole
    seconds, so that [current_time - st_mtime] is exact. *)
Record StatResult : Type := mkStat { st_size : Z; st_mtime : Z }.

Inductive LogLevel : Type := INFO | WARNING | ERROR.

(** The calls the downloader makes into its environment. *)
Inductive Call : Type :=
| PathMkdir (p : Path)                  (* p.mkdir(parents=True, exist_ok=True) *)
| PathExists (p : Path)                 (* p.exists() *)
| PathStat (p : Path)                   (* p.stat() *)
| PathUnlink (p : Path)                 (* p.unlink() *)
| PathIterdir (p : Path)                (* p.iterdir() *)
| PathGlob (p : Path) (pattern : string)       (* p.glob(pattern) *)
| GdownDownload (url output : string)   (* gdown.download(url, output, quiet=False) *)
| RequestsHead (url : string)           (* requests.head(url, ...).headers.get('content-type') *)
| ZipFileOpen (p : Path)                (* zipfile.ZipFile(p).filelist *)
| ZipExtract (archive : Path) (member : ZipInfo) (dest : Path)  (* zf.extract(member, dest) *)
| TimeTime                              (* time.time() *)
| Log (level : LogLevel) (msg : string).       (* self.logger.<level>(msg) *)

(** Every call but the clock and the logger may raise. *)
Definition resp (c : Call) : Type :=
  match c with
  | PathMkdir _ => Outcome unit
  | PathExists _ => Outcome bool
  | PathStat _ => Outcome StatResult
  | PathUnlink _ => Outcome unit
  | PathIterdir _ => Outcome (list Path)
  | PathGlob _ _ => Outcome (list Path)
  | GdownDownload _ _ => Outcome (option string)
  | RequestsHead _ => Outcome (option string)
  | ZipFileOpen _ => Outcome (list ZipInfo)
  | ZipExtract _ _ _ => Outcome unit
  | TimeTime => Z
  | Log _ _ => unit
  end.

Local Open Scope prog_scope.

Definition path_mkdir (p : Path) : Prog resp unit := Vis (PathMkdir p) lift.
Definition path_exists (p : Path) : Prog resp bool := Vis (PathExists p) lift.
Definition path_stat (p : Path) : Prog resp StatResult := Vis (PathStat p) lift.
Definition path_unlink (p : Path) : Prog resp unit := Vis (PathUnlink p) lift.
Definition path_iterdir (p : Path) : Prog resp (list Path) := Vis (PathIterdir p) lift.
Definition path_glob (p : Path) (pattern : string) : Prog resp (list Path) :=
  Vis (PathGlob p pattern) lift.
Definition gdown_download (url output : string) : Prog resp (option string) :=
  Vis (GdownDownload url output) lift.
Definition requests_head (url : string) : Prog resp (option string) :=
  Vis (RequestsHead url) lift.
Definition zipfile_open (p : Path) : Prog resp (list ZipInfo) := Vis (ZipFileOpen p) lift.
Definition zip_extract (archive : Path) (member : ZipInfo) (dest : Path) : Prog resp unit :=
  Vis (ZipExtract archive member dest) lift.
Definition time_time : Prog resp Z := Vis TimeTime Ret.
Definition logger (level : LogLevel) (msg : string) : Prog resp unit :=
  Vis (Log level msg) Ret.

(** The class attribute [MIME_TYPES]: a dict, in insertion order. *)
Definition MIME_TYPES : list (string * list string) :=
  [ ("zip", ["application/zip"; "application/x-zip-compressed"]);
    ("tar", ["application/x-tar"]);
    ("gzip", ["application/gzip"; "application/x-gzip"]);
    ("7z", ["application/x-7z-compressed"]);
    ("rar", ["application/x-rar-compressed"]) ].

(** [x in l] for a list of strings. *)
Definition str_in (x : string) (l : list string) : bool :=
  existsb (String.eqb x) l.

Definition _is_compressed_file (mime_type : option string) : bool :=
  if negb (truthy mime_type) then false
  else
    match mime_type with
    | None => false
    | Some m => existsb (fun mime_types => str_in m mime_types) (map snd MIME_TYPES)
    end.

(** The instance state the methods read: [self.cache_dir]. *)
Record GDriveDownloader : Type := mkDownloader { cache_dir : Path }.

(** Lines 124-134 of [download]: the URL handed to the transfer.
    [Returned None] is the "Invalid Google Drive URL format" exit. *)
Definition download_url_of (gdrive_url : string) : Outcome (option string) :=
  if contains "drive.google.com" gdrive_url then
    if contains "file/d/" gdrive_url then
      match py_index (split gdrive_url "file/d/") 1 with
      | Raised e => Raised e
      | Returned tail =>
          match py_index (split tail "/") 0 with
          | Raised e => Raised e
          | Returned file_id => Returned (Some ("https://drive.google.com/uc?id=" ++ file_id))
          end
      end
    else if contains "id=" gdrive_url then
      match py_index (split gdrive_url "id=") 1 with
      | Raised e => Raised e
      | Returned tail =>
          match py_index (split tail "&") 0 with
          | Raised e => Raised e
          | Returned file_id => Returned (Some ("https://drive.google.com/uc?id=" ++ file_id))
          end
      end
    else Returned None
  else Returned (Some gdrive_url).

Section Downloader.
(** [mimetypes.guess_type(name)[0]]: the standard library's table from
    file-name suffixes to MIME types, a pure function of the name. *)
Variable guess_type : string -> option string.

Definition _get_mime_type (url : string) : Prog resp (option string) :=
  try_except
    (let mime_type := guess_type url in
     if truthy mime_type then Ret mime_type
     else requests_head url)
    (fun e => Some (logger WARNING ("Failed to detect MIME type: " ++ exn_text e) ;;
                    Ret None)).

Definition download (self : GDriveDownloader) (gdrive_url : string)
    (output_path : Path) (force_download validate_compression : bool)
    : Prog resp (bool * string * option string) :=
  try_except
    (path_mkdir (parent output_path) ;;
     already <- (if negb force_download then path_exists output_path else Ret false) ;;
     if already then
       Ret (true, "File already exists", guess_type (path_str output_path))
     else
       target <- lift (download_url_of gdrive_url) ;;
       match target with
       | None => Ret (false, "Invalid Google Drive URL format", None)
       | Some download_url =>
           logger INFO ("Downloading file to " ++ path_str output_path) ;;
           success <- gdown_download download_url (path_str output_path) ;;
           if negb (truthy success) then Ret (false, "Download failed", None)
           else
             present <- path_exists output_path ;;
             bad <- (if negb present then Ret true
                     else st <- path_stat output_path ;; Ret (st_size st =? 0)%Z) ;;
             if bad then Ret (false, "Downloaded file is empty or missing", None)
             else
               mime_type <- _get_mime_type (path_str output_path) ;;
               if validate_compression && negb (_is_compressed_file mime_type)
               then Ret (false, "Downloaded file is not a compressed archive", mime_type)
               else Ret (true, "Download successful", mime_type)
       end)
    (fun e => Some (logger ERROR ("Download error: " ++ exn_text e) ;;
                    Ret (false, "Download failed: " ++ exn_text e, None))).

(** The [for file in zf.filelist] loop of [extract]; [extracted] is the
    running byte count fed to the progress bar (the bar itself is display
    only and left out). *)
Fixpoint extract_members (archive_path extract_path : Path)
    (filelist : list ZipInfo) (extracted : Z) : Prog resp Z :=
  match filelist with
  | [] => Ret extracted
  | file :: rest =>
      zip_extract archive_path file extract_path ;;
      extract_members archive_path extract_path rest (extracted + file_size file)%Z
  end.

Definition extract (self : GDriveDownloader) (archive_path extract_path : Path)
    (remove_archive : bool) (num_threads : Z) : Prog resp (bool * string) :=
  try_except
    (path_mkdir extract_path ;;
     present <- path_exists archive_path ;;
     if negb present then Ret (false, "Archive file not found")
     else
       let mime_type := guess_type (path_str archive_path) in
       if negb (_is_compressed_file mime_type)
       then Ret (false, "File is not a compressed archive")
       else
         logger INFO ("Extracting to " ++ path_str extract_path) ;;
         filelist <- zipfile_open archive_path ;;
         let total := fold_right Z.add 0%Z (map file_size filelist) in
         extract_members archive_path extract_path filelist 0 ;;
         entries <- path_iterdir extract_path ;;
         if negb (match entries with [] => false | _ :: _ => true end)
         then Ret (false, "No files found after extraction")
         else
           (if remove_archive then
              path_unlink archive_path ;;
              logger INFO ("Removed archive file: " ++ path_str archive_path)
            else Ret tt) ;;
           Ret (true, "Extraction successful"))
    (fun e =>
       if is_BadZipFile e then Some (Ret (false, "Invalid or corrupted zip file"))
       else Some (logger ERROR ("Extraction error: " ++ exn_text e) ;;
                  Ret (false, "Extraction failed: " ++ exn_text e))).

(** [self.cache_dir / f"temp_{int(time.time())}.zip"] *)
Definition temp_zip_path (self : GDriveDownloader) (now : Z) : Path :=
  joinpath (cache_dir self) ("temp_" ++ str_of_int now ++ ".zip").

Definition download_and_extract (self : GDriveDownloader) (gdrive_url : string)
    (extract_dir : Path) (keep_zip force_download : bool) (num_threads : Z)
    : Prog resp (bool * string) :=
  now <- time_time ;;
  let temp_zip := temp_zip_path self now in
  d <- download self gdrive_url temp_zip force_download true ;;
  let '(success, message, mime_type) := d in
  if negb success then Ret (false, "Download phase failed: " ++ message)
  else
    x <- extract self temp_zip extract_dir (negb keep_zip) num_threads ;;
    let '(success, message) := x in
    if negb success then
      present <- path_exists temp_zip ;;
      (if present then path_unlink temp_zip else Ret tt) ;;
      Ret (false, "Extraction phase failed: " ++ message)
    else Ret (true, "Download and extraction completed successfully").

(** The [for cache_file in self.cache_dir.glob("*.*")] loop of
    [cleanup_cache]. *)
Fixpoint sweep (current_time max_age_days : Z) (files : list Path) : Prog resp unit :=
  match files with
  | [] => Ret tt
  | cache_file :: rest =>
      st <- path_stat cache_file ;;
      (if (current_time - st_mtime st >? max_age_days * 86400)%Z then
         path_unlink cache_file ;;
         logger INFO ("Removed old cache file: " ++ path_str cache_file)
       else Ret tt) ;;
      sweep current_time max_age_days rest
  end.

Definition cleanup_cache (self : GDriveDownloader) (max_age_days : Z) : Prog resp unit :=
  try_except
    (current_time <- time_time ;;
     files <- path_glob (cache_dir self) "*.*" ;;
     sweep current_time max_age_days files)
    (fun e => Some (logger ERROR ("Cache cleanup failed: " ++ exn_text e))).
End Downloader.

(* --------------------------------------------------------------------- *)
(** ** An in-memory file system

    One environment for the downloader's calls: a tree of files and
    directories with modification times, paths whose deletion the system
    refuses, a clock and the log. The transfer and the header probe are
    left open ([Net]): a transfer is any function on worlds. *)
(* --------------------------------------------------------------------- *)

Inductive Content : Type :=
| Garbage                                 (* not a zip container *)
| ZipArchive (members : list ZipInfo).

Inductive Node : Type :=
| File (size mtime : Z) (content : Content)
| Dir (mtime : Z).

Definition FS : Type := list (Path * Node).

Fixpoint lookup (fs : FS) (p : Path) : option Node :=
  match fs with
  | [] => None
  | (q, n) :: fs' => if path_eq_dec q p then Some n else lookup fs' p
  end.

Definition remove (fs : FS) (p : Path) : FS :=
  filter (fun qn => if path_eq_dec (fst qn) p then false else true) fs.

Definition write (fs : FS) (p : Path) (n : Node) : FS := (p, n) :: remove fs p.

Definition fs_exists (fs : FS) (p : Path) : bool :=
  match lookup fs p with Some _ => true | None => false end.

(** The root (the empty path) is always a directory. *)
Definition is_dir (fs : FS) (p : Path) : bool :=
  match p with
  | [] => true
  | _ :: _ => match lookup fs p with Some (Dir _) => true | _ => false end
  end.

Definition is_child (d q : Path) : bool :=
  match q with
  | [] => false
  | _ :: _ => if path_eq_dec (parent q) d then true else false
  end.

Definition children (fs : FS) (d : Path) : list Path :=
  nodup path_eq_dec (filter (is_child d) (map fst fs)).

Definition os_error (what : string) (p : Path) : Exn :=
  mkExn OSError (what ++ ": '" ++ path_str p ++ "'").

(** [mkdir(parents=True, exist_ok=True)], on the reversed path: an existing
    directory is left alone, an existing file is an error, and a missing
    directory is created after its parent. *)
Fixpoint mkdir_rev (now : Z) (fs : FS) (rp : list string) : Outcome FS :=
  match rp with
  | [] => Returned fs
  | _ :: rp' =>
      let p := rev rp in
      match lookup fs p with
      | Some (Dir _) => Returned fs
      | Some (File _ _ _) => Raised (os_error "[Errno 17] File exists" p)
      | None =>
          match mkdir_rev now fs rp' with
          | Raised e => Raised e
          | Returned fs' => Returned (write fs' p (Dir now))
          end
      end
  end.

Definition mkdir (now : Z) (fs : FS) (p : Path) : Outcome FS := mkdir_rev now fs (rev p).

Definition unlink (locked : list Path) (fs : FS) (p : Path) : Outcome FS :=
  match lookup fs p with
  | None => Raised (os_error "[Errno 2] No such file or directory" p)
  | Some (Dir _) => Raised (os_error "[Errno 21] Is a directory" p)
  | Some (File _ _ _) =>
      if in_dec path_eq_dec p locked
      then Raised (os_error "[Errno 13] Permission denied" p)
      else Returned (remove fs p)
  end.

(** [zf.extract(member, dest)] for a flat archive: the destination directory
    is created when missing and the member is written as one entry of it. *)
Definition extract_member (now : Z) (fs : FS) (member : ZipInfo) (dest : Path) : Outcome FS :=
  match mkdir now fs dest with
  | Raised e => Raised e
  | Returned fs' =>
      let target := joinpath dest (filename member) in
      match lookup fs' target with
      | Some (Dir _) => Raised (os_error "[Errno 21] Is a directory" target)
      | _ => Returned (write fs' target (File (file_size member) now Garbage))
      end
  end.

Record World : Type := mkWorld {
  nodes : FS;
  clock : Z;
  locked : list Path;
  logs : list (LogLevel * string)
}.

Definition set_nodes (w : World) (fs : FS) : World :=
  mkWorld fs (clock w) (locked w) (logs w).

Record Net : Type := mkNet {
  transfer : string -> string -> World -> Outcome (option string) * World;
  head : string -> Outcome (option string)
}.

Definition simfs (net : Net) : Handler resp World :=
  fun c =>
    match c as c0 return World -> resp c0 * World with
    | PathMkdir p => fun w =>
        match mkdir (clock w) (nodes w) p with
        | Raised e => (Raised e, w)
        | Returned fs => (Returned tt, set_nodes w fs)
        end
    | PathExists p => fun w => (Returned (fs_exists (nodes w) p), w)
    | PathStat p => fun w =>
        match lookup (nodes w) p with
        | Some (File size mtime _) => (Returned (mkStat size mtime), w)
        | Some (Dir mtime) => (Returned (mkStat 4096 mtime), w)
        | None => (Raised (os_error "[Errno 2] No such file or directory" p), w)
        end
    | PathUnlink p => fun w =>
        match unlink (locked w) (nodes w) p with
        | Raised e => (Raised e, w)
        | Returned fs => (Returned tt, set_nodes w fs)
        end
    | PathIterdir p => fun w =>
        if is_dir (nodes w) p then (Returned (children (nodes w) p), w)
        else (Raised (os_error "[Errno 20] Not a directory" p), w)
    | PathGlob p pattern => fun w =>
        if is_dir (nodes w) p
        then (Returned (filter (fun q => fnmatch pattern (name q)) (children (nodes w) p)), w)
        else (Returned [], w)
    | GdownDownload url output => fun w => transfer net url output w
    | RequestsHead url => fun w => (head net url, w)
    | ZipFileOpen p => fun w =>
        match lookup (nodes w) p with
        | Some (File _ _ (ZipArchive members)) => (Returned members, w)
        | Some (File _ _ Garbage) => (Raised (mkExn BadZipFile "File is not a zip file"), w)
        | Some (Dir _) => (Raised (os_error "[Errno 21] Is a directory" p), w)
        | None => (Raised (os_error "[Errno 2] No such file or directory" p), w)
        end
    | ZipExtract _ member dest => fun w =>
        match extract_member (clock w) (nodes w) member dest with
        | Raised e => (Raised e, w)
        | Returned fs => (Returned tt, set_nodes w fs)
        end
    | TimeTime => fun w => (clock w, w)
    | Log level msg => fun w =>
        (tt, mkWorld (nodes w) (clock w) (locked w) (logs w ++ [(level, msg)])%list)
    end.

(** A stand-in for the table of [mimetypes]: the type follows from the
    file-name suffix alone. *)
Fixpoint ends_with (suffix s : string) : bool :=
  (s =? suffix) ||
  match s with
  | EmptyString => false
  | String _ s' => ends_with suffix s'
  end.

Definition mimetypes_guess_type (s : string) : option string :=
  if ends_with ".zip" s then Some "application/zip"
  else if ends_with ".tar" s then Some "application/x-tar"
  else if ends_with ".txt" s then Some "text/plain"
  else if ends_with ".html" s then Some "text/html"
  else None.

(** A network with nothing behind it: transfers report failure and leave the
    world alone, the header probe cannot connect. *)
Definition offline : Net :=
  mkNet (fun _ _ w => (Returned None, w))
        (fun _ => Raised (mkExn OtherException "Connection refused")).

(* --------------------------------------------------------------------- *)
(** ** [src/utils/memory_tracker.py] *)
(* --------------------------------------------------------------------- *)

Definition Tensor : Type := nat.       (* a handle on a tensor *)
Definition Module_ : Type := nat.      (* a handle on a torch.nn.Module *)
Definition Device : Type := string.

Inductive TorchCall : Type :=
| CudaIsAvailable                      (* torch.cuda.is_available() *)
| CudaEmptyCache                       (* torch.cuda.empty_cache() *)
| CudaSynchronize                      (* torch.cuda.synchronize() *)
| GcCollect                            (* gc.collect() *)
| ModelDevice (model : Module_)        (* str(next(model.parameters()).device) *)
| CudaDeviceEnter (d : Device)         (* torch.cuda.device(d).__enter__() *)
| CudaDeviceExit (d : Device)          (* torch.cuda.device(d).__exit__(...) *)
| TensorTo (tensor : Tensor) (device : Device) (non_blocking : bool)
                                       (* tensor.to(device, non_blocking=...) *)
| Print (msg : string).                (* print(msg) *)

Definition torch_resp (c : TorchCall) : Type :=
  match c with
  | CudaIsAvailable => Outcome bool
  | CudaEmptyCache => Outcome unit
  | CudaSynchronize => Outcome unit
  | GcCollect => Outcome unit
  | ModelDevice _ => Outcome string
  | CudaDeviceEnter _ => Outcome unit
  | CudaDeviceExit _ => Outcome unit
  | TensorTo _ _ _ => Outcome Tensor
  | Print _ => unit
  end.

Definition cuda_is_available : Prog torch_resp bool := Vis CudaIsAvailable lift.
Definition cuda_empty_cache : Prog torch_resp unit := Vis CudaEmptyCache lift.
Definition cuda_synchronize : Prog torch_resp unit := Vis CudaSynchronize lift.
Definition gc_collect : Prog torch_resp unit := Vis GcCollect lift.
Definition model_device (model : Module_) : Prog torch_resp string :=
  Vis (ModelDevice model) lift.
Definition tensor_to (tensor : Tensor) (device : Device) (non_blocking : bool)
  : Prog torch_resp Tensor := Vis (TensorTo tensor device non_blocking) lift.
Definition print (msg : string) : Prog torch_resp unit := Vis (Print msg) Ret.

(** [with torch.cuda.device(d): body]: the exit runs on both ways out. *)
Definition with_cuda_device {A : Type} (d : Device) (body : Prog torch_resp A)
  : Prog torch_resp A :=
  Vis (CudaDeviceEnter d) lift ;;
  r <- try_except body (fun e => Some (Vis (CudaDeviceExit d) lift ;; Throw e)) ;;
  Vis (CudaDeviceExit d) lift ;;
  Ret r.

(** [MemoryTracker.clear_memory(model)]; a model that is not [None] counts
    as true. *)
Definition clear_memory (model : option Module_) : Prog torch_resp unit :=
  try_except
    (available <- cuda_is_available ;;
     (if available then cuda_empty_cache ;; cuda_synchronize else Ret tt) ;;
     gc_collect ;;
     on_cuda <- match model with
                | None => Ret false
                | Some m => dev <- model_device m ;; Ret (contains "cuda" dev)
                end ;;
     if on_cuda then with_cuda_device "cuda" (cuda_empty_cache ;; gc_collect)
     else Ret tt)
    (fun e => Some (print ("Memory clearing error: " ++ exn_text e))).

Definition safe_to_device (tensor : Tensor) (device : Device) (non_blocking : bool)
  : Prog torch_resp Tensor :=
  try_except
    (tensor_to tensor device non_blocking)
    (fun e =>
       if is_RuntimeError e then
         Some (clear_memory None ;;
               try_except
                 (tensor_to tensor device false)
                 (fun _e =>
                    if is_RuntimeError _e then
                      Some (Throw (mkExn RuntimeError
                              ("Failed to move tensor to device even after memory cleanup: "
                               ++ exn_text e)))
                    else None))
       else None).

(* --------------------------------------------------------------------- *)
(** ** Observations on events *)
(* --------------------------------------------------------------------- *)

Definition failure {A : Type} (o : Outcome A) : option Exn :=
  match o with
  | Returned _ => None
  | Raised e => Some e
  end.

(** The exception a downloader call came back with, if it raised. *)
Definition raised (ev : Event resp) : option Exn :=
  let (c, r) := ev in
  match c return resp c -> option Exn with
  | PathMkdir _ => failure
  | PathExists _ => failure
  | PathStat _ => failure
  | PathUnlink _ => failure
  | PathIterdir _ => failure
  | PathGlob _ _ => failure
  | GdownDownload _ _ => failure
  | RequestsHead _ => failure
  | ZipFileOpen _ => failure
  | ZipExtract _ _ _ => failure
  | TimeTime => fun _ => None
  | Log _ _ => fun _ => None
  end r.

(** The listing a [PathIterdir] call on [d] came back with. *)
Definition listing (d : Path) (ev : Event resp) : option (list Path) :=
  let (c, r) := ev in
  match c return resp c -> option (list Path) with
  | PathIterdir p => fun r =>
      match r with
      | Returned l => if path_eq_dec p d then Some l else None
      | Raised _ => None
      end
  | _ => fun _ => None
  end r.

(** How [extract] answers when something inside its [try] raised [e]. *)
Definition extract_failure (e : Exn) : bool * string :=
  if is_BadZipFile e then (false, "Invalid or corrupted zip file")
  else (false, "Extraction failed: " ++ exn_text e).

(** [NoOcc sep u t]: in [u ++ t], no occurrence of [sep] starts inside [u]. *)
Definition NoOcc (sep u t : string) : Prop :=
  forall u1 c u2, u = u1 ++ String c u2 -> starts_with sep (String c u2 ++ t) = false.

(** [grows fs fs']: every path of [fs] is still there in [fs']. *)
Definition grows (fs fs' : FS) : Prop :=
  forall q, fs_exists fs q = true -> fs_exists fs' q = true.


(** The attempts to move a tensor, in order: the [non_blocking] flag of each
    [TensorTo] call of a trace. *)
Definition attempts (tr : list (Event torch_resp)) : list bool :=
  flat_map (fun ev => match projT1 ev with
                      | TensorTo _ _ non_blocking => [non_blocking]
                      | _ => []
                      end) tr.

(* --------------------------------------------------------------------- *)
(** ** Scenarios

    Concrete environments on which the theorems of Part II are exercised. *)
(* --------------------------------------------------------------------- *)

(** A transfer that reports success and leaves a file of [size] bytes with
    the given content at the output path; with [lock] set the file cannot be
    deleted afterwards (it is held open by another process). *)
Definition transfer_writing (size : Z) (content : Content) (lock : bool) : Net :=
  mkNet (fun _ output w =>
           let p := split output "/" in
           (Returned (Some output),
            mkWorld (write (nodes w) p (File size (clock w) content)) (clock w)
                    (if lock then p :: locked w else locked w) (logs w)))
        (fun _ => Raised (mkExn OtherException "Connection refused")).

Definition downloader : GDriveDownloader := mkDownloader ["cache"].

(** An empty cache directory, at time 1700000000. *)
Definition fresh_cache : World :=
  mkWorld [(["cache"], Dir 0)] 1700000000 [] [].


(** An archive with one member that cannot be deleted, and an empty
    destination. *)
Definition locked_archive : World :=
  mkWorld [(["in"], Dir 0);
           (["in"; "a.zip"], File 100 0 (ZipArchive [mkZipInfo "x.txt" 10]));
           (["out"], Dir 0)]
          1700000000 [["in"; "a.zip"]] [].


(** A destination file that exists with [size] bytes. *)
Definition existing_file (size : Z) : World :=
  mkWorld [(["data"], Dir 0); (["data"; "a.zip"], File size 0 Garbage)]
          1700000000 [] [].

(** A zip container stored under a name without a suffix. *)
Definition unnamed_archive : World :=
  mkWorld [(["in"], Dir 0);
           (["in"; "archive"], File 100 0 (ZipArchive [mkZipInfo "x.txt" 10]))]
          1700000000 [] [].

(** An archive with two members, and no destination directory yet. *)
Definition two_member_archive : World :=
  mkWorld [(["in"], Dir 0);
           (["in"; "a.zip"],
            File 100 0 (ZipArchive [mkZipInfo "x.txt" 10; mkZipInfo "y.txt" 20]))]
          1700000000 [] [].

(* --------------------------------------------------------------------- *)
(** ** Shapes of results *)
(* --------------------------------------------------------------------- *)

(** The results [download] can come back with, for a destination [out] and
    the flags [force_download] and [validate_compression]. *)
Definition download_result_shape (guess_type : string -> option string) (out : Path)
    (force validate success : bool) (message : string) (mime : option string) : Prop :=
  (success = true /\ message = "File already exists" /\ force = false /\
   mime = guess_type (path_str out)) \/
  (success = true /\ message = "Download successful" /\
   (validate = true -> _is_compressed_file mime = true)) \/
  (success = false /\ message = "Downloaded file is not a compressed archive" /\
   validate = true /\ _is_compressed_file mime = false) \/
  (success = false /\ mime = None /\
   (message = "Invalid Google Drive URL format" \/
    message = "Download failed" \/
    message = "Downloaded file is empty or missing" \/
    exists e, message = "Download failed: " ++ exn_text e)).

(* --------------------------------------------------------------------- *)
(** ** Further observations on traces *)
(* --------------------------------------------------------------------- *)

(** The members a trace extracted, in order: the [ZipExtract] calls that
    returned. *)
Definition extracted (tr : list (Event resp)) : list ZipInfo :=
  flat_map (fun ev : Event resp =>
              let (c, r) := ev in
              match c return resp c -> list ZipInfo with
              | ZipExtract _ member _ => fun r =>
                  match r with
                  | Returned _ => [member]
                  | Raised _ => []
                  end
              | _ => fun _ => []
              end r) tr.

(** The paths a trace called [unlink] on, in order. *)
Definition unlinked (tr : list (Event resp)) : list Path :=
  flat_map (fun ev : Event resp =>
              match projT1 ev with
              | PathUnlink p => [p]
              | _ => []
              end) tr.

Arguments extracted : simpl never.
Arguments unlinked : simpl never.

(** The file lists a trace got from opening zip containers, in order. *)
Definition opened (tr : list (Event resp)) : list (list ZipInfo) :=
  flat_map (fun ev : Event resp =>
              let (c, r) := ev in
              match c return resp c -> list (list ZipInfo) with
              | ZipFileOpen _ => fun r =>
                  match r with
                  | Returned filelist => [filelist]
                  | Raised _ => []
                  end
              | _ => fun _ => []
              end r) tr.

Arguments opened : simpl never.

(** Calls that read the archive: opening it, or extracting a member. *)
Definition reads_archive (c : Call) : bool :=
  match c with
  | ZipFileOpen _ | ZipExtract _ _ _ => true
  | _ => false
  end.

(** The transfers a trace asked for, in order: URL and output name. *)
Definition transfers (tr : list (Event resp)) : list (string * string) :=
  flat_map (fun ev : Event resp =>
              match projT1 ev with
              | GdownDownload url output => [(url, output)]
              | _ => []
              end) tr.

Arguments transfers : simpl never.

(** The paths whose [stat] came back, in a trace, with a modification time
    more than [max_age_days] days before [current_time]. *)
Definition old_stats (current_time max_age_days : Z) (tr : list (Event resp)) : list Path :=
  flat_map (fun ev : Event resp =>
              let (c, r) := ev in
              match c return resp c -> list Path with
              | PathStat p => fun r =>
                  match r with
                  | Returned st =>
                      if (current_time - st_mtime st >? max_age_days * 86400)%Z
                      then [p] else []
                  | Raised _ => []
                  end
              | _ => fun _ => []
              end r) tr.

Arguments old_stats : simpl never.






(** The URLs a trace sent a header probe to, in order. *)
Definition probes (tr : list (Event resp)) : list string :=
  flat_map (fun ev : Event resp =>
              match projT1 ev with
              | RequestsHead url => [url]
              | _ => []
              end) tr.

Arguments probes : simpl never.

(** The first exception a trace saw raised, and the events that came after
    the call that raised it. *)
Fixpoint first_raised (tr : list (Event resp)) : option Exn :=
  match tr with
  | [] => None
  | ev :: tl =>
      match raised ev with
      | Some e => Some e
      | None => first_raised tl
      end
  end.

Fixpoint after_raise (tr : list (Event resp)) : list (Event resp) :=
  match tr with
  | [] => []
  | ev :: tl =>
      match raised ev with
      | Some _ => tl
      | None => after_raise tl
      end
  end.

(* ===================================================================== *)
(** * Part II. Lemmas and theorems *)
(* ===================================================================== *)

(** ** Running programs *)

Section ProgFacts.
Context {call : Type} {resp : call -> Type} {W : Type}.
Variable h : Handler resp W.

Lemma run_bind {A B : Type} (p : Prog resp A) (f : A -> Prog resp B) (w : W) :
  run h (bind p f) w =
  match run h p w with
  | (Returned a, w') => run h (f a) w'
  | (Raised e, w') => (Raised e, w')
  end.
Proof.
  revert w. induction p as [a | e | c k IH]; intros w; simpl; auto.
  destruct (h c w) as [r w']. apply IH.
Qed.

Lemma trace_bind {A B : Type} (p : Prog resp A) (f : A -> Prog resp B) (w : W) :
  trace h (bind p f) w =
  (trace h p w ++
   match run h p w with
   | (Returned a, w') => trace h (f a) w'
   | (Raised _, _) => []
   end)%list.
Proof.
  revert w. induction p as [a | e | c k IH]; intros w; simpl; auto.
  destruct (h c w) as [r w']. simpl. f_equal. apply IH.
Qed.

Lemma run_try_except {A : Type} (p : Prog resp A) (hd : Exn -> option (Prog resp A)) (w : W) :
  run h (try_except p hd) w =
  match run h p w with
  | (Returned a, w') => (Returned a, w')
  | (Raised e, w') =>
      match hd e with
      | Some q => run h q w'
      | None => (Raised e, w')
      end
  end.
Proof.
  revert w. induction p as [a | e | c k IH]; intros w; simpl; auto.
  - destruct (hd e); reflexivity.
  - destruct (h c w) as [r w']. apply IH.
Qed.

Lemma trace_try_except {A : Type} (p : Prog resp A) (hd : Exn -> option (Prog resp A)) (w : W) :
  trace h (try_except p hd) w =
  (trace h p w ++
   match run h p w with
   | (Returned _, _) => []
   | (Raised e, w') =>
       match hd e with
       | Some q => trace h q w'
       | None => []
       end
   end)%list.
Proof.
  revert w. induction p as [a | e | c k IH]; intros w; simpl; auto.
  - destruct (hd e); reflexivity.
  - destruct (h c w) as [r w']. simpl. f_equal. apply IH.
Qed.
End ProgFacts.

(** ** The archive-type predicate *)

(** C7. [_is_compressed_file] is true exactly on the MIME strings listed
    under the five families of [MIME_TYPES] (zip, tar, gzip, 7z, rar), and
    false on [None], on the empty string and on ["text/plain"]. *)
Theorem is_compressed_file_spec :
  map fst MIME_TYPES = ["zip"; "tar"; "gzip"; "7z"; "rar"] /\
  (forall mime : option string,
      _is_compressed_file mime = true <->
      exists m, mime = Some m /\ In m (List.concat (map snd MIME_TYPES))) /\
  _is_compressed_file None = false /\
  _is_compressed_file (Some "") = false /\
  _is_compressed_file (Some "text/plain") = false.
Proof.
  split; [reflexivity |]. split; [| repeat split; reflexivity].
  intros [m |]; split.
  - unfold _is_compressed_file, truthy. destruct (m =? "") eqn:E; simpl; [discriminate |].
    intros H. exists m. split; [reflexivity |].
    unfold str_in in H. simpl in H.
    repeat rewrite orb_true_iff in H. repeat rewrite String.eqb_eq in H.
    intuition (try discriminate; subst; simpl; auto 10).
  - intros (m' & Hm & Hin). injection Hm as <-.
    simpl in Hin. intuition (subst; reflexivity).
  - discriminate.
  - intros (m' & Hm & _). discriminate.
Qed.

(** ** Strings: [in] and [split] *)

Lemma append_assoc (a b c : string) : (a ++ b) ++ c = a ++ (b ++ c).
Proof. induction a as [| x a IH]; simpl; [reflexivity | now rewrite IH]. Qed.

Lemma append_nil_r (a : string) : a ++ "" = a.
Proof. induction a as [| x a IH]; simpl; [reflexivity | now rewrite IH]. Qed.

Lemma length_append (a b : string) :
  String.length (a ++ b) = String.length a + String.length b.
Proof. induction a as [| x a IH]; simpl; [reflexivity | now rewrite IH]. Qed.

Lemma starts_with_append (p t : string) : starts_with p (p ++ t) = true.
Proof.
  induction p as [| x p IH]; simpl; [reflexivity |].
  now rewrite Ascii.eqb_refl.
Qed.


Lemma contains_here (sub a b : string) :
  starts_with sub b = true -> contains sub (a ++ b) = true.
Proof.
  intros H. induction a as [| x a IH]; simpl.
  - destruct b; simpl; rewrite H; reflexivity.
  - rewrite IH. apply orb_true_r.
Qed.

Lemma contains_middle (sub a b : string) : contains sub (a ++ sub ++ b) = true.
Proof. apply contains_here, starts_with_append. Qed.


Lemma NoOcc_tail (sep : string) (c : ascii) (u t : string) :
  NoOcc sep (String c u) t -> NoOcc sep u t.
Proof. intros H u1 d u2 E. apply (H (String c u1) d u2). simpl. now rewrite E. Qed.

Lemma split_from_skip (sep u cur t : string) :
  split_from sep (String.length u) cur (u ++ t) = split_from sep 0 cur t.
Proof. induction u as [| x u IH]; simpl; [reflexivity | exact IH]. Qed.

Lemma split_from_sep (sep cur t : string) :
  sep <> "" -> split_from sep 0 cur (sep ++ t) = cur :: split_from sep 0 "" t.
Proof.
  intros Hne. destruct sep as [| c sep']; [congruence |].
  pose proof (starts_with_append (String c sep') t) as P.
  simpl append in *. cbn [split_from]. rewrite P.
  cbn [String.length]. rewrite Nat.sub_succ, Nat.sub_0_r.
  now rewrite split_from_skip.
Qed.

Lemma split_from_NoOcc (sep u cur t : string) :
  NoOcc sep u t -> split_from sep 0 cur (u ++ t) = split_from sep 0 (cur ++ u) t.
Proof.
  revert cur. induction u as [| x u IH]; intros cur H.
  - simpl. now rewrite append_nil_r.
  - pose proof (H "" x u eq_refl) as P.
    simpl append in *. cbn [split_from]. rewrite P.
    rewrite IH by (eapply NoOcc_tail; eauto).
    now rewrite append_assoc.
Qed.

Lemma split_from_head (sep s cur : string) :
  exists x l, split_from sep 0 cur s = (cur ++ x) :: l.
Proof.
  revert cur. induction s as [| c s IH]; intros cur.
  - exists "", []. simpl. now rewrite append_nil_r.
  - cbn [split_from]. destruct (starts_with sep (String c s)).
    + exists "". eexists. now rewrite append_nil_r.
    + destruct (IH (cur ++ String c "")) as (x & l & E).
      exists (String c x), l. rewrite E, append_assoc. reflexivity.
Qed.






(** ** Symbolic execution

    [explore h] runs a program against an arbitrary environment [h]: it
    splits on the response to each call, on each test and on each pure
    computation that may raise, leaving one goal per path. *)

Ltac red_prog :=
  cbn -[append download_url_of _is_compressed_file truthy path_str parent
        temp_zip_path Z.sub Z.mul Z.gtb Z.eqb Z.add
        mkdir unlink extract_member children is_dir fs_exists lookup fnmatch].

Ltac red_in H :=
  cbn -[append download_url_of _is_compressed_file truthy path_str parent
        temp_zip_path Z.sub Z.mul Z.gtb Z.eqb Z.add
        mkdir unlink extract_member children is_dir fs_exists lookup fnmatch] in H.

Ltac step h :=
  match goal with
  | |- context [h ?c ?w] =>
      let r := fresh "r" in
      let w' := fresh "w" in
      destruct (h c w) as [r w'] eqn:?; cbn in r;
      match type of r with
      | Outcome _ => destruct r as [? | ?]
      | unit => destruct r
      | _ => idtac
      end; red_prog
  end.

Ltac innermost x :=
  lazymatch x with
  | context [match _ with _ => _ end] => fail
  | context [if _ then _ else _] => fail
  | _ => idtac
  end.

Ltac branch :=
  match goal with
  | |- context [lift ?o] => destruct o as [? | ?] eqn:?; red_prog
  | |- context [if ?b then _ else _] => innermost b; destruct b eqn:?; red_prog
  | |- context [match ?x with _ => _ end] => innermost x; destruct x eqn:?; red_prog
  end.

Ltac explore h := red_prog; repeat first [step h | branch].

Ltac each_event :=
  repeat (first [apply Forall_nil | apply Forall_cons]);
  cbn; try (intros; discriminate).

(** ** URL resolution *)

(** Whatever [download] hands to the transfer is the URL computed by
    [download_url_of], and the output is the destination path. *)
Lemma download_transfer_target (guess_type : string -> option string) {W : Type}
    (h : Handler resp W) (w : W) (self : GDriveDownloader) (url : string)
    (out : Path) (force validate : bool) :
  Forall (fun ev => forall u o, projT1 ev = GdownDownload u o ->
                      download_url_of url = Returned (Some u) /\ o = path_str out)
         (trace h (download guess_type self url out force validate) w).
Proof.
  unfold download, _get_mime_type. explore h.
  all: each_event.
  all: intros u o [= <- <-]; auto.
Qed.

Lemma split_first_piece (sep pre t : string) :
  sep <> "" -> NoOcc sep pre (sep ++ t) ->
  split (pre ++ sep ++ t) sep = pre :: split t sep.
Proof.
  intros Hne H. unfold split.
  rewrite split_from_NoOcc by exact H. simpl append.
  now apply split_from_sep.
Qed.





(** ** [download] against an arbitrary environment *)

(** [download] always returns, and a call that raised decides the result:
    the structured failure carrying the exception text. Only a failed header
    probe inside [_get_mime_type] is swallowed. *)
Lemma download_structured (guess_type : string -> option string) {W : Type}
    (h : Handler resp W) (w : W) (self : GDriveDownloader) (url : string)
    (out : Path) (force validate : bool) :
  exists r w',
    run h (download guess_type self url out force validate) w = (Returned r, w') /\
    Forall (fun ev => forall e, raised ev = Some e ->
                        (forall u, projT1 ev <> RequestsHead u) ->
                        r = (false, "Download failed: " ++ exn_text e, None))
           (trace h (download guess_type self url out force validate) w).
Proof.
  unfold download, _get_mime_type. explore h.
  all: do 2 eexists; (split; [reflexivity |]).
  all: each_event.
  all: try (intros ? [= <-] ?; reflexivity).
  all: intros ? ? H; exfalso; eapply H; reflexivity.
Qed.

(** C6. With [force_download] off, once the parent directory is ensured and
    the destination is reported to exist, [download] returns success with
    the message "File already exists" and the MIME type guessed from the
    file name; the only calls made are that [mkdir] and that [exists]: no
    transfer, no header probe, no [stat] and no read of the file. *)
Theorem download_existing_file (guess_type : string -> option string) {W : Type}
    (h : Handler resp W) (w w1 w2 : W) (self : GDriveDownloader) (url : string)
    (out : Path) (validate : bool) :
  h (PathMkdir (parent out)) w = (Returned tt, w1) ->
  h (PathExists out) w1 = (Returned true, w2) ->
  run h (download guess_type self url out false validate) w =
    (Returned (true, "File already exists", guess_type (path_str out)), w2) /\
  trace h (download guess_type self url out false validate) w =
    [existT resp (PathMkdir (parent out)) (Returned tt);
     existT resp (PathExists out) (Returned true)].
Proof.
  intros Hmk Hex. unfold download. red_prog.
  rewrite Hmk. red_prog. rewrite Hex. red_prog. split; reflexivity.
Qed.

Lemma download_empty_only_after_transfer (guess_type : string -> option string) {W : Type}
    (h : Handler resp W) (w w' : W) (self : GDriveDownloader) (url : string)
    (out : Path) (force validate : bool) (mime : option string) :
  run h (download guess_type self url out force validate) w =
    (Returned (false, "Downloaded file is empty or missing", mime), w') ->
  exists ev u, In ev (trace h (download guess_type self url out force validate) w) /\
               projT1 ev = GdownDownload u (path_str out) /\ raised ev = None.
Proof.
  unfold download, _get_mime_type. explore h.
  all: intros H; try (cbn in H; discriminate H).
  all: match goal with
       | Hq : _ (GdownDownload ?s ?o) _ = (Returned ?a, _) |- _ =>
           exists (existT resp (GdownDownload s o) (Returned a)), s
       end.
  all: split; [simpl; tauto | split; reflexivity].
Qed.

(** ** [extract] against an arbitrary environment *)

Section ExtractFacts.
Variable guess_type : string -> option string.
Context {W : Type}.
Variable h : Handler resp W.

(** The member loop makes [ZipExtract] calls only, and the first one that
    raises ends it with that exception. *)
Lemma extract_members_trace (archive dest : Path) (filelist : list ZipInfo) (n : Z) (w : W) :
  Forall (fun ev => (exists m, projT1 ev = ZipExtract archive m dest) /\
                    forall e, raised ev = Some e ->
                      exists w', run h (extract_members archive dest filelist n) w
                                 = (Raised e, w'))
         (trace h (extract_members archive dest filelist n) w).
Proof.
  revert n w. induction filelist as [| file rest IH]; intros n w; [constructor |].
  red_prog. step h.
  - constructor; [split; [eexists; reflexivity | cbn; discriminate] | apply IH].
  - each_event. split; [eexists; reflexivity |]. intros ? [= <-]. eauto.
Qed.

Lemma extract_members_listing (d archive dest : Path) (filelist : list ZipInfo)
    (n : Z) (w : W) :
  ~ Exists (fun ev => listing d ev = Some [])
           (trace h (extract_members archive dest filelist n) w).
Proof.
  rewrite Exists_exists. intros (ev & Hin & Hev).
  pose proof (extract_members_trace archive dest filelist n w) as F.
  rewrite Forall_forall in F. destruct (F ev Hin) as [[m Hm] _].
  destruct ev as [c r]. simpl in Hm. subst c. discriminate Hev.
Qed.

Lemma extract_members_raised (archive dest : Path) (filelist : list ZipInfo)
    (n : Z) (w : W) (P : Exn -> Prop) :
  (forall e w', run h (extract_members archive dest filelist n) w = (Raised e, w') -> P e) ->
  Forall (fun ev => forall e, raised ev = Some e -> P e)
         (trace h (extract_members archive dest filelist n) w).
Proof.
  intros HP. eapply Forall_impl; [| apply extract_members_trace].
  intros ev [_ H] e He. destruct (H e He) as [w' Hw]. eauto.
Qed.

Lemma extract_structured (self : GDriveDownloader) (archive dest : Path)
    (remove_archive : bool) (num_threads : Z) (w : W) :
  exists r w',
    run h (extract guess_type self archive dest remove_archive num_threads) w
      = (Returned r, w') /\
    Forall (fun ev => forall e, raised ev = Some e -> r = extract_failure e)
           (trace h (extract guess_type self archive dest remove_archive num_threads) w) /\
    (r = (false, "No files found after extraction") <->
     Exists (fun ev => listing dest ev = Some [])
            (trace h (extract guess_type self archive dest remove_archive num_threads) w)).
Proof.
  unfold extract. explore h.
  all: try rewrite !trace_try_except, !trace_bind.
  all: try rewrite !run_try_except, !run_bind.
  all: try match goal with
       | |- context [run h (extract_members ?a ?d ?l ?n) ?w] =>
           pose proof (extract_members_listing dest a d l n w) as Hquiet;
           pose proof (extract_members_raised a d l n w) as Hloop;
           destruct (run h (extract_members a d l n) w) as [[? | ?] ?] eqn:Hrun
       end.
  all: explore h.
  all: do 2 eexists; (split; [reflexivity |]).
  all: rewrite ?app_nil_r.
  all: split.
  all: try (split; [intros [=] |]).
  all: repeat first [rewrite Forall_app | rewrite Forall_cons_iff | rewrite Exists_app
                    | rewrite Exists_cons | rewrite Forall_nil_iff | rewrite Exists_nil].
  all: cbn -[append].
  all: unfold extract_failure.
  all: repeat match goal with
       | |- _ /\ _ => split
       | |- True => exact I
       | |- forall e, None = Some e -> _ => discriminate
       | |- forall e, Some _ = Some e -> _ =>
           let E := fresh in intros ? [= <-]; 
           match goal with Hb : is_BadZipFile _ = _ |- _ => rewrite Hb end; reflexivity
       | |- Forall _ (trace _ _ _) =>
           apply Hloop; intros ? ? [= <-];
           match goal with Hb : is_BadZipFile _ = _ |- _ => rewrite Hb end; reflexivity
       | |- Forall _ (trace _ _ _) => apply Hloop; intros ? ? [=]
       end.
  all: try (intros _; reflexivity).
  all: try match goal with
       | Hb : negb (match ?l with _ => _ end) = _ |- _ =>
           destruct l; cbn in Hb; try discriminate Hb
       end.
  all: try (destruct (path_eq_dec dest dest); [| congruence]).
  all: try tauto.
  all: intros H; exfalso;
       repeat match goal with
              | H : _ \/ _ |- _ => destruct H as [H | H]
              end;
       try discriminate H; try exact (Hquiet H); try exact H.
Qed.
End ExtractFacts.

(** ** [cleanup_cache] and [download_and_extract] against an arbitrary environment *)

Section PipelineFacts.
Variable guess_type : string -> option string.
Context {W : Type}.
Variable h : Handler resp W.

(** In the sweep, the first call that raises ends the loop with that
    exception. *)
Lemma sweep_trace (now days : Z) (files : list Path) (w : W) :
  Forall (fun ev => forall e, raised ev = Some e ->
                      exists w', run h (sweep now days files) w = (Raised e, w'))
         (trace h (sweep now days files) w).
Proof.
  revert w. induction files as [| f rest IH]; intros w; [constructor |].
  explore h.
  all: repeat (apply Forall_cons; [cbn; try discriminate |]); try apply Forall_nil.
  all: try apply IH.
  all: intros ? [= <-]; eauto.
Qed.

Lemma cleanup_cache_structured (self : GDriveDownloader) (max_age_days : Z) (w : W) :
  exists w',
    run h (cleanup_cache self max_age_days) w = (Returned tt, w') /\
    Forall (fun ev => forall e, raised ev = Some e ->
              Exists (fun ev' => projT1 ev' = Log ERROR ("Cache cleanup failed: " ++ exn_text e))
                     (trace h (cleanup_cache self max_age_days) w))
           (trace h (cleanup_cache self max_age_days) w).
Proof.
  unfold cleanup_cache. explore h.
  all: try rewrite !trace_try_except.
  all: try rewrite !run_try_except.
  all: try match goal with
       | |- context [run h (sweep ?n ?d ?l) ?w] =>
           pose proof (sweep_trace n d l w) as Hloop;
           destruct (run h (sweep n d l) w) as [[[] | ?] ?] eqn:Hrun
       end.
  all: explore h.
  all: eexists; (split; [reflexivity |]).
  all: rewrite ?app_nil_r.
  all: repeat first [rewrite Forall_app | rewrite Forall_cons_iff | rewrite Forall_nil_iff].
  all: cbn -[append].
  all: repeat match goal with
       | |- _ /\ _ => split
       | |- True => exact I
       | |- forall e, None = Some e -> _ => discriminate
       end.
  all: try (rewrite Forall_forall; intros ev Hin e0 He;
            rewrite Forall_forall in Hloop;
            destruct (Hloop ev Hin e0 He) as [w' Hw];
            first [discriminate Hw | injection Hw as <- _]).
  all: try (intros e0 [= <-]).
  all: apply Exists_exists;
       exists (existT resp (Log ERROR ("Cache cleanup failed: " ++ exn_text e)) tt);
       (split; [simpl; rewrite ?in_app_iff; simpl; tauto | reflexivity]).
Qed.


End PipelineFacts.

(** ** The in-memory file system *)

Lemma lookup_remove_same (fs : FS) (p : Path) : lookup (remove fs p) p = None.
Proof.
  induction fs as [| [q n] fs IH]; simpl; [reflexivity |].
  destruct (path_eq_dec q p) as [E | E]; simpl; [exact IH |].
  destruct (path_eq_dec q p); [contradiction | exact IH].
Qed.

Lemma lookup_remove_other (fs : FS) (p q : Path) :
  q <> p -> lookup (remove fs p) q = lookup fs q.
Proof.
  intros Hne. induction fs as [| [r n] fs IH]; simpl; [reflexivity |].
  destruct (path_eq_dec r p) as [E | E]; simpl.
  - destruct (path_eq_dec r q); [congruence | exact IH].
  - destruct (path_eq_dec r q); [reflexivity | exact IH].
Qed.

Lemma lookup_write_same (fs : FS) (p : Path) (n : Node) : lookup (write fs p n) p = Some n.
Proof. unfold write. simpl. destruct (path_eq_dec p p); congruence. Qed.

Lemma lookup_write_other (fs : FS) (p q : Path) (n : Node) :
  q <> p -> lookup (write fs p n) q = lookup fs q.
Proof.
  intros Hne. unfold write. simpl.
  destruct (path_eq_dec p q); [congruence | now apply lookup_remove_other].
Qed.


Lemma grows_refl (fs : FS) : grows fs fs.
Proof. intros q H. exact H. Qed.

Lemma grows_trans (a b c : FS) : grows a b -> grows b c -> grows a c.
Proof. intros H1 H2 q H. auto. Qed.

Lemma grows_write (fs : FS) (p : Path) (n : Node) : grows fs (write fs p n).
Proof.
  intros q H. unfold fs_exists in *.
  destruct (path_eq_dec q p) as [-> | Hne].
  - now rewrite lookup_write_same.
  - now rewrite lookup_write_other.
Qed.

Lemma mkdir_rev_grows (now : Z) (fs fs' : FS) (rp : list string) :
  mkdir_rev now fs rp = Returned fs' -> grows fs fs'.
Proof.
  revert fs'. induction rp as [| c rp IH]; intros fs' H; simpl in H.
  - injection H as <-. apply grows_refl.
  - destruct (lookup fs (rev rp ++ [c])%list) as [[] |].
    + discriminate.
    + injection H as <-. apply grows_refl.
    + destruct (mkdir_rev now fs rp) as [fs1 |]; [| discriminate].
      injection H as <-. eapply grows_trans; [apply IH; reflexivity | apply grows_write].
Qed.

Lemma mkdir_grows (now : Z) (fs fs' : FS) (p : Path) :
  mkdir now fs p = Returned fs' -> grows fs fs'.
Proof. apply mkdir_rev_grows. Qed.

Lemma mkdir_is_dir (now : Z) (fs : FS) (p : Path) :
  is_dir fs p = true -> mkdir now fs p = Returned fs.
Proof.
  unfold mkdir, is_dir. destruct p as [| c p]; [reflexivity |].
  intros H. destruct (rev (c :: p)) as [| x rp] eqn:E.
  - apply (f_equal (@List.length string)) in E. rewrite length_rev in E. discriminate.
  - cbn [mkdir_rev]. rewrite <- E, rev_involutive.
    destruct (lookup fs (c :: p)) as [[] |]; try discriminate. reflexivity.
Qed.

Lemma extract_member_grows (now : Z) (fs fs' : FS) (member : ZipInfo) (dest : Path) :
  extract_member now fs member dest = Returned fs' -> grows fs fs'.
Proof.
  unfold extract_member. intros H.
  destruct (mkdir now fs dest) as [fs1 |] eqn:E; [| discriminate].
  apply mkdir_grows in E.
  destruct (lookup fs1 (joinpath dest (filename member))) as [[] |];
    try discriminate; injection H as <-;
    (eapply grows_trans; [exact E | apply grows_write]).
Qed.

Lemma unlink_gone (lk : list Path) (fs fs' : FS) (p : Path) :
  unlink lk fs p = Returned fs' -> fs_exists fs' p = false.
Proof.
  unfold unlink. intros H.
  destruct (lookup fs p) as [[] |]; try discriminate.
  destruct (in_dec path_eq_dec p lk); [discriminate |].
  injection H as <-. unfold fs_exists. now rewrite lookup_remove_same.
Qed.



Section SimFacts.
Variable guess_type : string -> option string.
Variable net : Net.

Lemma extract_members_simfs (archive dest : Path) (filelist : list ZipInfo) (n : Z)
    (w w' : World) (r : Outcome Z) :
  run (simfs net) (extract_members archive dest filelist n) w = (r, w') ->
  grows (nodes w) (nodes w') /\ clock w' = clock w /\ locked w' = locked w.
Proof.
  revert n w. induction filelist as [| file rest IH]; intros n w H.
  - injection H as _ <-. auto using grows_refl.
  - red_in H.
    destruct (extract_member (clock w) (nodes w) file dest) as [fs |] eqn:E; red_in H.
    + apply IH in H as (G & Hc & Hl). cbn in *.
      split; [| auto]. eapply grows_trans; [eapply extract_member_grows; eauto | exact G].
    + injection H as _ <-. auto using grows_refl.
Qed.

(** After a successful [extract] the archive is on disk exactly when it
    was not to be removed. *)
Lemma extract_simfs_archive (self : GDriveDownloader) (archive dest : Path)
    (remove_archive : bool) (num_threads : Z) (w w' : World) (msg : string) :
  run (simfs net) (extract guess_type self archive dest remove_archive num_threads) w
    = (Returned (true, msg), w') ->
  fs_exists (nodes w') archive = negb remove_archive.
Proof.
  unfold extract. explore (simfs net).
  all: try rewrite run_try_except, run_bind.
  all: try match goal with
       | |- context [run (simfs net) (extract_members ?a ?d ?l ?n) ?w] =>
           destruct (run (simfs net) (extract_members a d l n) w) as [[? | ?] ?] eqn:Hloop;
           apply extract_members_simfs in Hloop; destruct Hloop as (Hg & Hc & Hl)
       end.
  all: explore (simfs net).
  all: intros H; inversion H; subst; clear H; cbn [nodes negb].
  - eapply unlink_gone; eauto.
  - apply Hg. cbn [nodes]. now apply negb_false_iff.
Qed.

(** C1 (as amended). On the in-memory file system, for every transfer
    behaviour, when [download_and_extract] returns: after full success the
    temporary archive is on disk exactly when [keep_zip] was set; after a
    failed extraction phase it is not on disk; after a failed download
    phase no cleanup has been done, the world is as [download] left it.
    These are the only three ways to return. *)
Theorem download_and_extract_temp_archive (self : GDriveDownloader) (url : string)
    (extract_dir : Path) (keep_zip force : bool) (num_threads : Z)
    (w w' : World) (success : bool) (message : string) :
  let temp_zip := temp_zip_path self (clock w) in
  run (simfs net) (download_and_extract guess_type self url extract_dir
                     keep_zip force num_threads) w
    = (Returned (success, message), w') ->
  (success = true -> fs_exists (nodes w') temp_zip = keep_zip) /\
  (starts_with "Extraction phase failed: " message = true ->
     success = false /\ fs_exists (nodes w') temp_zip = false) /\
  (starts_with "Download phase failed: " message = true ->
     success = false /\
     exists m mime,
       run (simfs net) (download guess_type self url temp_zip force true) w
         = (Returned (false, m, mime), w') /\
       message = "Download phase failed: " ++ m) /\
  (success = true \/
   starts_with "Extraction phase failed: " message = true \/
   starts_with "Download phase failed: " message = true).
Proof.
  intros temp_zip. unfold download_and_extract.
  cbn -[download extract append temp_zip_path starts_with]. fold temp_zip.
  rewrite run_bind.
  destruct (run (simfs net) (download guess_type self url temp_zip force true) w)
    as [[[[[] m] mime] | e] wd] eqn:Hd;
    cbn -[download extract append temp_zip_path starts_with]; try discriminate.
  - rewrite run_bind.
    destruct (run (simfs net) (extract guess_type self temp_zip extract_dir
                                 (negb keep_zip) num_threads) wd)
      as [[[[] m'] | e] we] eqn:He;
      cbn -[download extract append temp_zip_path starts_with fs_exists unlink];
      try discriminate.
    + intros [= <- <- <-]. apply extract_simfs_archive in He.
      rewrite negb_involutive in He.
      repeat split; try discriminate; auto.
    + destruct (fs_exists (nodes we) temp_zip) eqn:Hex;
        cbn -[append starts_with fs_exists unlink].
      * destruct (unlink (locked we) (nodes we) temp_zip) as [fs |] eqn:Hun;
          cbn -[append starts_with fs_exists unlink]; [| discriminate].
        intros [= <- <- <-]. apply unlink_gone in Hun.
        repeat split; try discriminate; auto.
      * intros [= <- <- <-].
        repeat split; try discriminate; auto.
  - intros [= <- <- <-].
    repeat split; try discriminate; eauto 6.
Qed.
End SimFacts.

Section EmptyCheck.
Variable guess_type : string -> option string.
Variable net : Net.


End EmptyCheck.

(** ** The cache sweep on the in-memory file system *)

Lemma fnmatch_star (s : string) : fnmatch "*" s = true.
Proof.
  induction s as [| c s IH]; [reflexivity |].
  change (fnmatch "*" (String c s)) with (fnmatch "" (String c s) || fnmatch "*" s).
  rewrite IH. apply orb_true_r.
Qed.

(** The pattern of [cleanup_cache] selects the names with a dot in them. *)
Lemma fnmatch_star_dot_star (s : string) : fnmatch "*.*" s = contains "." s.
Proof.
  induction s as [| c s IH]; [reflexivity |].
  change (fnmatch "*.*" (String c s))
    with (fnmatch ".*" (String c s) || fnmatch "*.*" s).
  change (fnmatch ".*" (String c s))
    with ((Ascii.eqb "." "?" || Ascii.eqb "." c) && fnmatch "*" s).
  rewrite fnmatch_star, IH. cbn [contains starts_with].
  now destruct s.
Qed.

Section SweepFacts.
Variable net : Net.


End SweepFacts.

(** ** The device-transfer guard *)

Section GuardFacts.
Context {W : Type}.
Variable h : Handler torch_resp W.

(** [clear_memory] catches whatever its steps raise. *)
Lemma clear_memory_returns (model : option Module_) (w : W) :
  exists w', run h (clear_memory model) w = (Returned tt, w').
Proof.
  unfold clear_memory. rewrite run_try_except.
  match goal with
  | |- context [run h ?body w] => destruct (run h body w) as [[[] | e] w1]
  end; [eauto |].
  cbn -[append]. destruct (h (Print ("Memory clearing error: " ++ exn_text e)) w1) as [[] w2].
  eauto.
Qed.

(** The reclaim step of [safe_to_device] starts by asking for CUDA and
    moves no tensor. *)
Lemma clear_memory_trace (w : W) :
  attempts (trace h (clear_memory None) w) = [] /\
  exists r tl, trace h (clear_memory None) w = existT torch_resp CudaIsAvailable r :: tl.
Proof.
  unfold clear_memory. explore h.
  all: split; [reflexivity | eauto].
Qed.

Lemma attempts_app (a b : list (Event torch_resp)) :
  attempts (a ++ b)%list = (attempts a ++ attempts b)%list.
Proof. apply flat_map_app. Qed.

End GuardFacts.

(** ** The claims about the public operations *)




(** C3 (as amended). When the deletion of the source archive raises, [extract]
    reports a failure -- [extract_failure] of the exception, whose flag is
    false -- although every member was extracted. An error inside
    [cleanup_cache] is logged and [cleanup_cache] returns [None]. *)
Theorem cleanup_failures (guess_type : string -> option string) {W : Type}
    (h : Handler resp W) (w : W) (self : GDriveDownloader) :
  (forall archive dest num_threads ev e,
      In ev (trace h (extract guess_type self archive dest true num_threads) w) ->
      projT1 ev = PathUnlink archive ->
      raised ev = Some e ->
      fst (run h (extract guess_type self archive dest true num_threads) w)
        = Returned (extract_failure e) /\
      fst (extract_failure e) = false) /\
  (forall max_age_days,
      exists w',
        run h (cleanup_cache self max_age_days) w = (Returned tt, w') /\
        Forall (fun ev => forall e, raised ev = Some e ->
                  Exists (fun ev' => projT1 ev' = Log ERROR ("Cache cleanup failed: " ++ exn_text e))
                         (trace h (cleanup_cache self max_age_days) w))
               (trace h (cleanup_cache self max_age_days) w)).
Proof.
  split; [| intros; apply cleanup_cache_structured].
  intros archive dest num_threads ev e Hin _ Hev.
  destruct (extract_structured guess_type h self archive dest true num_threads w)
    as (r & w' & Hrun & Hall & _).
  rewrite Forall_forall in Hall. rewrite Hrun, (Hall ev Hin e Hev).
  split; [reflexivity |]. unfold extract_failure. now destruct (is_BadZipFile e).
Qed.

(** C3, witness: the archive of [locked_archive] cannot be deleted. *)
Lemma cleanup_failures_witness :
  fst (run (simfs offline)
           (extract mimetypes_guess_type downloader ["in"; "a.zip"] ["out"] true 4)
           locked_archive)
  = Returned (false, "Extraction failed: [Errno 13] Permission denied: 'in/a.zip'").
Proof.
  refine (proj1 (proj1 (cleanup_failures mimetypes_guess_type (simfs offline)
                          locked_archive downloader)
                   ["in"; "a.zip"] ["out"] 4%Z
                   (existT resp (PathUnlink ["in"; "a.zip"])
                      (Raised (mkExn OSError "[Errno 13] Permission denied: 'in/a.zip'")))
                   _ _ eq_refl eq_refl)).
  vm_compute. do 6 right. left. reflexivity.
Defined.

(** C3, counterexample. Every member of the archive is extracted, the
    deletion of the archive is refused, and [extract] reports failure. *)
Lemma extract_fails_on_unlink :
  let out := run (simfs offline)
                 (extract mimetypes_guess_type downloader ["in"; "a.zip"] ["out"] true 4)
                 locked_archive in
  fst out = Returned (false, "Extraction failed: [Errno 13] Permission denied: 'in/a.zip'") /\
  fs_exists (nodes (snd out)) ["out"; "x.txt"] = true /\
  fs_exists (nodes (snd out)) ["in"; "a.zip"] = true.
Proof. vm_compute. auto. Qed.

(** C1, witness: a full success with [keep_zip] set keeps the archive. *)
Lemma download_and_extract_temp_archive_witness :
  fs_exists
    (nodes (snd (run (simfs (transfer_writing 1000 (ZipArchive [mkZipInfo "a.txt" 10]) false))
                     (download_and_extract mimetypes_guess_type downloader
                        "https://example.com/data.zip" ["data"] true false 4)
                     fresh_cache)))
    ["cache"; "temp_1700000000.zip"] = true.
Proof.
  refine (proj1 (download_and_extract_temp_archive mimetypes_guess_type
                   (transfer_writing 1000 (ZipArchive [mkZipInfo "a.txt" 10]) false)
                   downloader "https://example.com/data.zip" ["data"] true false 4
                   fresh_cache _ true _ _) eq_refl).
  vm_compute. reflexivity.
Defined.

(** C1, counterexample. The transfer reports success but leaves an empty
    file: the download phase fails, [download_and_extract] returns without
    any cleanup, and the temporary archive is still in the cache. *)
Lemma temp_archive_left_after_failed_download :
  let out := run (simfs (transfer_writing 0 Garbage false))
                 (download_and_extract mimetypes_guess_type downloader
                    "https://example.com/data.zip" ["data"] false false 4)
                 fresh_cache in
  fst out = Returned (false, "Download phase failed: Downloaded file is empty or missing") /\
  fs_exists (nodes fresh_cache) ["cache"; "temp_1700000000.zip"] = false /\
  fs_exists (nodes (snd out)) ["cache"; "temp_1700000000.zip"] = true.
Proof. vm_compute. auto. Qed.






(** C6, witness: an existing file of five bytes. *)
Lemma download_existing_file_witness :
  run (simfs offline)
      (download mimetypes_guess_type downloader "https://example.com/data.zip"
         ["data"; "a.zip"] false true) (existing_file 5)
  = (Returned (true, "File already exists", Some "application/zip"), existing_file 5).
Proof.
  exact (proj1 (download_existing_file mimetypes_guess_type (simfs offline)
                  (existing_file 5) (existing_file 5) (existing_file 5) downloader
                  "https://example.com/data.zip" ["data"; "a.zip"] true eq_refl eq_refl)).
Defined.

(** C9. On the in-memory file system, a destination that exists with size
    zero makes [download] (with [force_download] off) return success with
    "File already exists", leaving the world as it was and never calling
    [stat]. And against every environment, the failure "Downloaded file is
    empty or missing" is only returned after a transfer that reported
    success. *)
Theorem download_existing_empty_file (guess_type : string -> option string) :
  (forall (net : Net) (w : World) (self : GDriveDownloader) (url : string) (out : Path)
          (validate : bool) (mtime : Z) (content : Content),
      is_dir (nodes w) (parent out) = true ->
      lookup (nodes w) out = Some (File 0 mtime content) ->
      run (simfs net) (download guess_type self url out false validate) w
        = (Returned (true, "File already exists", guess_type (path_str out)), w) /\
      Forall (fun ev => forall p, projT1 ev <> PathStat p)
             (trace (simfs net) (download guess_type self url out false validate) w)) /\
  (forall (W : Type) (h : Handler resp W) (w w' : W) (self : GDriveDownloader)
          (url : string) (out : Path) (force validate : bool) (mime : option string),
      run h (download guess_type self url out force validate) w
        = (Returned (false, "Downloaded file is empty or missing", mime), w') ->
      exists ev u,
        In ev (trace h (download guess_type self url out force validate) w) /\
        projT1 ev = GdownDownload u (path_str out) /\ raised ev = None).
Proof.
  split.
  - intros net w self url out validate mtime content Hdir Hlk.
    unfold download. red_prog. rewrite (mkdir_is_dir _ _ _ Hdir). red_prog.
    unfold fs_exists. rewrite Hlk. red_prog.
    split; [destruct w; reflexivity |].
    repeat constructor; discriminate.
  - intros W h w w' self url out force validate mime.
    apply download_empty_only_after_transfer.
Qed.

(** C9, witness: an existing file of zero bytes. *)
Lemma download_existing_empty_file_witness :
  run (simfs offline)
      (download mimetypes_guess_type downloader "https://example.com/data.zip"
         ["data"; "a.zip"] false true) (existing_file 0)
  = (Returned (true, "File already exists", Some "application/zip"), existing_file 0).
Proof.
  exact (proj1 (proj1 (download_existing_empty_file mimetypes_guess_type)
                  offline (existing_file 0) downloader "https://example.com/data.zip"
                  ["data"; "a.zip"] true 0%Z Garbage eq_refl eq_refl)).
Defined.



(* ===================================================================== *)
(** * Part III. Further properties of the two files *)
(* ===================================================================== *)

(** ** More on URL resolution *)

Lemma starts_with_split (p s : string) :
  starts_with p s = true -> exists t, s = p ++ t.
Proof.
  revert s. induction p as [| a p IH]; intros s H; [now exists s |].
  destruct s as [| b s]; [discriminate |]. cbn [starts_with] in H.
  apply andb_true_iff in H as [E H]. apply Ascii.eqb_eq in E. subst b.
  destruct (IH s H) as [t ->]. now exists t.
Qed.

(** A string that contains [sep] splits around its first occurrence. *)
Lemma first_occurrence (sep s : string) :
  contains sep s = true ->
  exists pre t, s = pre ++ sep ++ t /\ NoOcc sep pre (sep ++ t).
Proof.
  induction s as [| c s IH]; intros H.
  - cbn [contains] in H. rewrite orb_false_r in H.
    destruct (starts_with_split _ _ H) as [t E].
    exists "", t. split; [exact E |]. intros [| ? ?] ? ? [=].
  - cbn [contains] in H. destruct (starts_with sep (String c s)) eqn:P.
    + destruct (starts_with_split _ _ P) as [t E].
      exists "", t. split; [exact E |]. intros [| ? ?] ? ? [=].
    + destruct (IH H) as (pre & t & E & N).
      exists (String c pre), t. split; [cbn [append]; now rewrite E |].
      intros [| x u1] d u2 [= -> ->].
      * cbn [append]. now rewrite <- E.
      * eapply N. reflexivity.
Qed.

(** After [sep in s], the index [1] of [s.split(sep)] exists. *)
Lemma split_second (sep s : string) :
  sep <> "" -> contains sep s = true -> exists a b l, split s sep = a :: b :: l.
Proof.
  intros Hne H. destruct (first_occurrence _ _ H) as (pre & t & -> & N).
  rewrite split_first_piece by assumption.
  unfold split. destruct (split_from_head sep t "") as (x & l & ->). eauto.
Qed.

Lemma split_first (sep s : string) : exists a l, split s sep = a :: l.
Proof. unfold split. destruct (split_from_head sep s "") as (x & l & ->). eauto. Qed.

(** X2. URL resolution never raises: the indexings [split(...)[1]] and
    [split(...)[0]] of lines 126 and 128 are always in range, because each
    follows the [in] test for its separator. *)
Theorem download_url_of_never_raises (gdrive_url : string) :
  exists target, download_url_of gdrive_url = Returned target.
Proof.
  unfold download_url_of.
  destruct (contains "drive.google.com" gdrive_url); [| eauto].
  destruct (contains "file/d/" gdrive_url) eqn:Hf.
  - destruct (split_second "file/d/" gdrive_url) as (a & b & l & ->);
      [discriminate | exact Hf |].
    cbn [py_index nth_error]. destruct (split_first "/" b) as (x & l' & ->).
    cbn [py_index nth_error]. eauto.
  - destruct (contains "id=" gdrive_url) eqn:Hi; [| eauto].
    destruct (split_second "id=" gdrive_url) as (a & b & l & ->);
      [discriminate | exact Hi |].
    cbn [py_index nth_error]. destruct (split_first "&" b) as (x & l' & ->).
    cbn [py_index nth_error]. eauto.
Qed.







(** ** More on [download] *)

Section DownloadFacts.
Variable guess_type : string -> option string.
Context {W : Type}.
Variable h : Handler resp W.

(** X3. A Drive URL with neither [file/d/] nor [id=] is never handed to the
    transfer: [download] answers with the existing file (when not forcing),
    with "Invalid Google Drive URL format", or with the failure of its
    [mkdir]/[exists] call. *)
Theorem download_invalid_drive_url (self : GDriveDownloader) (url : string)
    (out : Path) (force validate : bool) (w : W) :
  contains "drive.google.com" url = true ->
  contains "file/d/" url = false ->
  contains "id=" url = false ->
  Forall (fun ev => forall u o, projT1 ev <> GdownDownload u o)
         (trace h (download guess_type self url out force validate) w) /\
  exists r w',
    run h (download guess_type self url out force validate) w = (Returned r, w') /\
    ((force = false /\ r = (true, "File already exists", guess_type (path_str out))) \/
     r = (false, "Invalid Google Drive URL format", None) \/
     exists e, r = (false, "Download failed: " ++ exn_text e, None)).
Proof.
  intros Hhost Hfile Hid.
  assert (R : download_url_of url = Returned None)
    by (unfold download_url_of; now rewrite Hhost, Hfile, Hid).
  split.
  - eapply Forall_impl; [| apply download_transfer_target].
    intros ev H u o Hev. destruct (H u o Hev) as [E _]. congruence.
  - unfold download. rewrite R. explore h.
    all: do 2 eexists; (split; [reflexivity |]).
    all: try match goal with
         | Hf : negb ?f = true |- _ => apply negb_true_iff in Hf; subst f
         end.
    all: eauto 6.
Qed.

(** X4. A URL that does not name the Drive host goes to the transfer as it
    is: every transfer [download] makes is called with that URL and with the
    destination path. *)
Theorem download_other_host (self : GDriveDownloader) (url : string)
    (out : Path) (force validate : bool) (w : W) (ev : Event resp) (u o : string) :
  contains "drive.google.com" url = false ->
  In ev (trace h (download guess_type self url out force validate) w) ->
  projT1 ev = GdownDownload u o ->
  u = url /\ o = path_str out.
Proof.
  intros Hhost Hin Hev.
  pose proof (download_transfer_target guess_type h w self url out force validate) as F.
  rewrite Forall_forall in F. destruct (F ev Hin u o Hev) as [E ->].
  unfold download_url_of in E. rewrite Hhost in E. now injection E as <-.
Qed.

(** X5. The results [download] can return: success is "File already
    exists" (only when not forcing, with the MIME type guessed from the
    name and never checked) or "Download successful" (with an archive MIME
    type when [validate_compression] is set); a failure carries a MIME type
    only for "Downloaded file is not a compressed archive". *)
Theorem download_results (self : GDriveDownloader) (url : string)
    (out : Path) (force validate : bool) (w w' : W)
    (success : bool) (message : string) (mime : option string) :
  run h (download guess_type self url out force validate) w
    = (Returned (success, message, mime), w') ->
  download_result_shape guess_type out force validate success message mime.
Proof.
  unfold download_result_shape, download, _get_mime_type. explore h.
  all: intros H; injection H as <- <- <- <-.
  all: repeat match goal with
       | Hf : negb ?f = true |- _ => apply negb_true_iff in Hf
       | Hf : negb ?f = false |- _ => apply negb_false_iff in Hf
       | Hf : _ && _ = true |- _ => apply andb_true_iff in Hf; destruct Hf
       end.
  all: try solve [left; subst; auto].
  all: try solve [do 3 right; repeat split; auto 6;
                  do 3 right; eexists; reflexivity].
  all: try solve [do 2 right; left; subst; auto].
  all: right; left; repeat split; intros ->;
       match goal with
       | Hf : true && negb ?c = false |- _ => now destruct c
       end.
Qed.

(** X6. MIME detection is best effort: [_get_mime_type] always returns;
    when the name alone gives a type it makes no call at all; otherwise it
    makes one header probe, and a probe that raises gives [None]. *)
Theorem get_mime_type_best_effort (url : string) (w : W) :
  (truthy (guess_type url) = true ->
   run h (_get_mime_type guess_type url) w = (Returned (guess_type url), w) /\
   trace h (_get_mime_type guess_type url) w = []) /\
  (truthy (guess_type url) = false ->
   exists w',
     run h (_get_mime_type guess_type url) w
       = (Returned match fst (h (RequestsHead url) w) with
                   | Returned content_type => content_type
                   | Raised _ => None
                   end, w') /\
     exists tl, trace h (_get_mime_type guess_type url) w
                = existT resp (RequestsHead url) (fst (h (RequestsHead url) w)) :: tl).
Proof.
  unfold _get_mime_type. split; intros Ht; rewrite Ht; red_prog; [auto |].
  destruct (h (RequestsHead url) w) as [r w1]. cbn in r.
  destruct r as [content_type | e]; red_prog; [eauto |].
  match goal with |- context [h ?c ?x] => destruct (h c x) as [[] w2] end.
  eauto.
Qed.
End DownloadFacts.

(** X3, witness: a forced download of a folder link. *)
Lemma download_invalid_drive_url_witness :
  fst (run (simfs offline)
           (download mimetypes_guess_type downloader "https://drive.google.com/drive/my-drive"
              ["cache"; "x.zip"] true true) fresh_cache)
  = Returned (false, "Invalid Google Drive URL format", None).
Proof.
  destruct (proj2 (download_invalid_drive_url mimetypes_guess_type (simfs offline)
                     downloader "https://drive.google.com/drive/my-drive"
                     ["cache"; "x.zip"] true true fresh_cache eq_refl eq_refl eq_refl))
    as (r & w' & Hrun & _).
  rewrite Hrun. vm_compute in Hrun. now injection Hrun as <- _.
Defined.

(** X4, witness: a forced download from another host. *)
Lemma download_other_host_witness :
  In (existT resp (GdownDownload "https://example.com/data.zip" "cache/x.zip")
        (Returned (Some "cache/x.zip")))
     (trace (simfs (transfer_writing 0 Garbage false))
        (download mimetypes_guess_type downloader "https://example.com/data.zip"
           ["cache"; "x.zip"] true true) fresh_cache) /\
  "https://example.com/data.zip" = "https://example.com/data.zip" /\
  "cache/x.zip" = path_str ["cache"; "x.zip"].
Proof.
  assert (Hin : In (existT resp (GdownDownload "https://example.com/data.zip" "cache/x.zip")
                      (Returned (Some "cache/x.zip")))
                   (trace (simfs (transfer_writing 0 Garbage false))
                      (download mimetypes_guess_type downloader
                         "https://example.com/data.zip" ["cache"; "x.zip"] true true)
                      fresh_cache))
    by (vm_compute; do 2 right; left; reflexivity).
  split; [exact Hin |].
  exact (download_other_host mimetypes_guess_type (simfs (transfer_writing 0 Garbage false))
           downloader "https://example.com/data.zip" ["cache"; "x.zip"] true true
           fresh_cache _ _ _ eq_refl Hin eq_refl).
Defined.

(** X5, witness: the short-circuit on an existing file. *)
Lemma download_results_witness :
  download_result_shape mimetypes_guess_type ["data"; "a.zip"] false true
    true "File already exists" (Some "application/zip").
Proof.
  apply (download_results mimetypes_guess_type (simfs offline) downloader
           "https://example.com/data.zip" ["data"; "a.zip"] false true
           (existing_file 5) (existing_file 5)).
  vm_compute. reflexivity.
Defined.

(** X6, witness: a [.zip] name is classified without any call. *)
Lemma get_mime_type_best_effort_witness :
  run (simfs offline) (_get_mime_type mimetypes_guess_type "cache/x.zip") fresh_cache
  = (Returned (Some "application/zip"), fresh_cache).
Proof.
  exact (proj1 (proj1 (get_mime_type_best_effort mimetypes_guess_type (simfs offline)
                         "cache/x.zip" fresh_cache) eq_refl)).
Defined.

(** ** More on [extract] *)

Section ExtractMore.
Variable guess_type : string -> option string.
Context {W : Type}.
Variable h : Handler resp W.

Lemma extracted_app (a b : list (Event resp)) :
  extracted (a ++ b)%list = (extracted a ++ extracted b)%list.
Proof. apply flat_map_app. Qed.

Lemma unlinked_app (a b : list (Event resp)) :
  unlinked (a ++ b)%list = (unlinked a ++ unlinked b)%list.
Proof. apply flat_map_app. Qed.

Lemma opened_app (a b : list (Event resp)) :
  opened (a ++ b)%list = (opened a ++ opened b)%list.
Proof. apply flat_map_app. Qed.

Lemma observe_cons (ev : Event resp) (tr : list (Event resp)) :
  extracted (ev :: tr) = (extracted [ev] ++ extracted tr)%list /\
  unlinked (ev :: tr) = (unlinked [ev] ++ unlinked tr)%list /\
  opened (ev :: tr) = (opened [ev] ++ opened tr)%list.
Proof.
  unfold extracted, unlinked, opened. cbn [flat_map]. now rewrite !app_nil_r.
Qed.

(** Brings the observations of a trace down to those of its loop part. *)
Ltac observe :=
  repeat match goal with
         | |- context [extracted (?e :: ?l)] =>
             lazymatch l with
             | nil => fail
             | _ => rewrite (proj1 (observe_cons _ l))
             end
         | |- context [unlinked (?e :: ?l)] =>
             lazymatch l with
             | nil => fail
             | _ => rewrite (proj1 (proj2 (observe_cons _ l)))
             end
         | |- context [opened (?e :: ?l)] =>
             lazymatch l with
             | nil => fail
             | _ => rewrite (proj2 (proj2 (observe_cons _ l)))
             end
         end;
  rewrite ?extracted_app, ?unlinked_app, ?opened_app.

(** The member loop extracts the members in order, up to the first one that
    raises, and deletes nothing. *)
Lemma extract_members_order (archive dest : Path) (filelist : list ZipInfo) (n : Z) (w : W) :
  unlinked (trace h (extract_members archive dest filelist n) w) = [] /\
  opened (trace h (extract_members archive dest filelist n) w) = [] /\
  exists rest,
    filelist = (extracted (trace h (extract_members archive dest filelist n) w) ++ rest)%list /\
    (forall n' w', run h (extract_members archive dest filelist n) w = (Returned n', w') ->
                   rest = []).
Proof.
  revert n w. induction filelist as [| file rest IH]; intros n w.
  - do 2 (split; [reflexivity |]). exists []. split; [reflexivity | auto].
  - red_prog. step h.
    + destruct (IH (n + file_size file)%Z w0) as (Hu & Ho & tl & Htl & Hdone).
      observe. rewrite Hu, Ho. do 2 (split; [reflexivity |]).
      exists tl. split; [| exact Hdone].
      rewrite Htl at 1. reflexivity.
    + do 2 (split; [reflexivity |]).
      exists (file :: rest). split; [reflexivity | discriminate].
Qed.

(** What a run of [extract] opened, extracted and deleted. *)
Lemma extract_trace_shape (self : GDriveDownloader) (archive dest : Path)
    (remove_archive : bool) (num_threads : Z) (w : W) :
  let p := extract guess_type self archive dest remove_archive num_threads in
  let done := fst (run h p w) = Returned (true, "Extraction successful") in
  (unlinked (trace h p w) = [] /\ (done -> remove_archive = false) \/
   unlinked (trace h p w) = [archive] /\ remove_archive = true) /\
  (opened (trace h p w) = [] /\ extracted (trace h p w) = [] /\ ~ done \/
   exists filelist rest,
     opened (trace h p w) = [filelist] /\
     filelist = (extracted (trace h p w) ++ rest)%list /\
     (done -> rest = [])).
Proof.
  intros p done. unfold done, p, extract. explore h.
  all: try rewrite !trace_try_except, !trace_bind.
  all: try rewrite !run_try_except, !run_bind.
  all: try match goal with
       | |- context [run h (extract_members ?a ?d ?l ?n) ?w] =>
           destruct (extract_members_order a d l n w) as (Hu & Ho & tl & Htl & Hdone);
           destruct (run h (extract_members a d l n) w) as [[? | ?] ?] eqn:Hrun
       end.
  all: explore h.
  all: rewrite ?app_nil_r; observe; rewrite ?Hu, ?Ho.
  all: try match goal with
       | |- context [extracted (trace h ?q ?v)] =>
           set (ex := extracted (trace h q v)) in *
       end.
  all: unfold unlinked, opened, extracted; cbn -[append]; rewrite ?app_nil_r.
  all: split;
    [ first [ right; split; reflexivity
            | left; split; [reflexivity |];
              intro Hd; first [reflexivity | cbn [append] in Hd; discriminate Hd] ]
    | first [ left; do 2 (split; [reflexivity |]);
              intro Hd; cbn [append] in Hd; discriminate Hd
            | right; eexists; exists tl; split; [reflexivity |]; split; [exact Htl |];
              intro Hd;
              first [ eapply Hdone; reflexivity
                    | cbn [append] in Hd; discriminate Hd ] ] ].
Qed.

(** X7. [extract] deletes nothing but the archive it was given, and only
    when [remove_archive] is set: the paths it calls [unlink] on are none,
    or the archive alone. A successful run with [remove_archive] has made
    that one call. *)
Theorem extract_deletes_only_archive (self : GDriveDownloader) (archive dest : Path)
    (remove_archive : bool) (num_threads : Z) (w : W) :
  let p := extract guess_type self archive dest remove_archive num_threads in
  (unlinked (trace h p w) = [] \/
   unlinked (trace h p w) = [archive] /\ remove_archive = true) /\
  (fst (run h p w) = Returned (true, "Extraction successful") ->
   unlinked (trace h p w) = if remove_archive then [archive] else []).
Proof.
  intros p.
  destruct (extract_trace_shape self archive dest remove_archive num_threads w)
    as [[[Hu Hd] | [Hu Hr]] _].
  - split; [left; exact Hu |]. intros Hdone. rewrite (Hd Hdone). exact Hu.
  - split; [right; auto |]. intros _. rewrite Hr. exact Hu.
Qed.

(** X8. [extract] opens at most one zip container and extracts its members
    in the order of the container's file list, stopping at the first member
    that raises; what it extracted is a prefix of that list, and after a
    successful run it is the whole list. *)
Theorem extract_members_in_order (self : GDriveDownloader) (archive dest : Path)
    (remove_archive : bool) (num_threads : Z) (w : W) :
  let p := extract guess_type self archive dest remove_archive num_threads in
  (opened (trace h p w) = [] /\ extracted (trace h p w) = [] /\
   fst (run h p w) <> Returned (true, "Extraction successful")) \/
  (exists filelist rest,
      opened (trace h p w) = [filelist] /\
      filelist = (extracted (trace h p w) ++ rest)%list /\
      (fst (run h p w) = Returned (true, "Extraction successful") -> rest = [])).
Proof.
  intros p.
  exact (proj2 (extract_trace_shape self archive dest remove_archive num_threads w)).
Qed.

(** X9. The archive type is decided from the file name alone, before the
    file is read: when the name of the archive is not of a compressed type,
    [extract] neither opens the file nor extracts or deletes anything, and
    it does not report success. *)
Theorem extract_name_decides (self : GDriveDownloader) (archive dest : Path)
    (remove_archive : bool) (num_threads : Z) (w : W) :
  _is_compressed_file (guess_type (path_str archive)) = false ->
  let p := extract guess_type self archive dest remove_archive num_threads in
  Forall (fun ev => reads_archive (projT1 ev) = false) (trace h p w) /\
  unlinked (trace h p w) = [] /\
  (forall msg, fst (run h p w) <> Returned (true, msg)).
Proof.
  intros Hname p. unfold p, extract. explore h.
  all: try (rewrite Hname in *; discriminate).
  all: split; [each_event; reflexivity |]; split; [reflexivity |].
  all: intros msg; discriminate.
Qed.
End ExtractMore.

(** X9, witness: a zip container under a name without suffix. *)
Lemma extract_name_decides_witness :
  Forall (fun ev => reads_archive (projT1 ev) = false)
         (trace (simfs offline)
                (extract mimetypes_guess_type downloader ["in"; "archive"] ["out"] true 4)
                unnamed_archive) /\
  unlinked (trace (simfs offline)
                  (extract mimetypes_guess_type downloader ["in"; "archive"] ["out"] true 4)
                  unnamed_archive) = [] /\
  (forall msg,
      fst (run (simfs offline)
               (extract mimetypes_guess_type downloader ["in"; "archive"] ["out"] true 4)
               unnamed_archive) <> Returned (true, msg)).
Proof.
  refine (extract_name_decides mimetypes_guess_type (simfs offline) downloader
            ["in"; "archive"] ["out"] true 4 unnamed_archive _).
  vm_compute. reflexivity.
Defined.

(** ** More on [extract], on the in-memory file system *)

(** [mkdir] only adds directories, stamped with the current time. *)
Lemma mkdir_rev_adds (now : Z) (fs fs' : FS) (rp : list string) :
  mkdir_rev now fs rp = Returned fs' ->
  forall q, lookup fs' q = lookup fs q \/
            (lookup fs q = None /\ lookup fs' q = Some (Dir now)).
Proof.
  revert fs'. induction rp as [| c rp IH]; intros fs' H q; simpl in H.
  - injection H as <-. now left.
  - destruct (lookup fs (rev rp ++ [c])%list) as [[] |] eqn:E.
    + discriminate.
    + injection H as <-. now left.
    + destruct (mkdir_rev now fs rp) as [fs1 |]; [| discriminate].
      injection H as <-.
      destruct (path_eq_dec q (rev rp ++ [c])%list) as [-> | Hne].
      * right. rewrite lookup_write_same. auto.
      * rewrite lookup_write_other by exact Hne. now apply IH.
Qed.

Lemma mkdir_adds (now : Z) (fs fs' : FS) (p : Path) :
  mkdir now fs p = Returned fs' ->
  forall q, lookup fs' q = lookup fs q \/
            (lookup fs q = None /\ lookup fs' q = Some (Dir now)).
Proof. apply mkdir_rev_adds. Qed.

Lemma mkdir_makes_dir (now : Z) (fs fs' : FS) (p : Path) :
  mkdir now fs p = Returned fs' -> is_dir fs' p = true.
Proof.
  unfold mkdir, is_dir. destruct p as [| c p]; [reflexivity |].
  destruct (rev (c :: p)) as [| x rp] eqn:E.
  - apply (f_equal (@List.length string)) in E. rewrite length_rev in E. discriminate.
  - cbn [mkdir_rev]. rewrite <- E, rev_involutive.
    destruct (lookup fs (c :: p)) as [[] |] eqn:El; try discriminate.
    + intros [= <-]. now rewrite El.
    + destruct (mkdir_rev now fs rp); [| discriminate].
      intros [= <-]. now rewrite lookup_write_same.
Qed.

Section SimExtract.
Variable guess_type : string -> option string.
Variable net : Net.


(** X10. A missing archive is reported only after the destination directory
    has been created: when [extract] returns "Archive file not found", the
    destination is a directory, and the file system differs from the one
    before the call by added directories only. *)
Theorem extract_missing_archive_makes_dest (self : GDriveDownloader) (archive dest : Path)
    (remove_archive : bool) (num_threads : Z) (w w' : World) :
  run (simfs net) (extract guess_type self archive dest remove_archive num_threads) w
    = (Returned (false, "Archive file not found"), w') ->
  is_dir (nodes w') dest = true /\
  fs_exists (nodes w') archive = false /\
  (forall q, lookup (nodes w') q = lookup (nodes w) q \/
             (lookup (nodes w) q = None /\ lookup (nodes w') q = Some (Dir (clock w)))).
Proof.
  unfold extract. explore (simfs net).
  all: try rewrite run_try_except, run_bind.
  all: try match goal with
       | |- context [run (simfs net) (extract_members ?a ?d ?l ?n) ?w] =>
           destruct (run (simfs net) (extract_members a d l n) w) as [[? | ?] ?] eqn:Hloop
       end.
  all: explore (simfs net).
  all: intros H; try (cbn [append] in H; discriminate H).
  all: injection H as <-; cbn [nodes set_nodes].
  all: split; [eapply mkdir_makes_dir; eauto |].
  all: split; [now apply negb_true_iff | eapply mkdir_adds; eauto].
Qed.



End SimExtract.

(** X10, witness: the archive [in/b.zip] does not exist; [out] is created. *)
Lemma extract_missing_archive_makes_dest_witness :
  is_dir [(["out"], Dir 1700000000);
          (["in"], Dir 0);
          (["in"; "a.zip"],
           File 100 0 (ZipArchive [mkZipInfo "x.txt" 10; mkZipInfo "y.txt" 20]))]
         ["out"] = true.
Proof.
  refine (proj1 (extract_missing_archive_makes_dest mimetypes_guess_type offline downloader
                   ["in"; "b.zip"] ["out"] false 4 two_member_archive
                   (mkWorld [(["out"], Dir 1700000000);
                             (["in"], Dir 0);
                             (["in"; "a.zip"],
                              File 100 0 (ZipArchive [mkZipInfo "x.txt" 10;
                                                      mkZipInfo "y.txt" 20]))]
                            1700000000 [] []) _)).
  vm_compute. reflexivity.
Defined.




(** ** More on [download] and [download_and_extract] *)

Section PipelineMore.
Variable guess_type : string -> option string.
Context {W : Type}.
Variable h : Handler resp W.

Lemma transfers_app (a b : list (Event resp)) :
  transfers (a ++ b)%list = (transfers a ++ transfers b)%list.
Proof. apply flat_map_app. Qed.

(** What a run of [download] transferred and deleted. *)
Lemma download_trace_shape (self : GDriveDownloader) (url : string)
    (out : Path) (force validate : bool) (w : W) :
  let p := download guess_type self url out force validate in
  unlinked (trace h p w) = [] /\
  (transfers (trace h p w) = [] \/
   exists u, download_url_of url = Returned (Some u) /\
             transfers (trace h p w) = [(u, path_str out)]).
Proof.
  intros p. unfold p, download, _get_mime_type. explore h.
  all: unfold unlinked, transfers; cbn -[append download_url_of path_str].
  all: split; [reflexivity |].
  all: first [left; reflexivity | right; eexists; split; reflexivity].
Qed.

(** X12. [download] asks for at most one transfer, to the destination path
    and from the URL that [download_url_of] computes, and it never deletes
    a file: a download it rejects as empty or as not an archive stays on
    disk. "Download successful" is only reported after a transfer. *)
Theorem download_one_transfer_no_unlink (self : GDriveDownloader) (url : string)
    (out : Path) (force validate : bool) (w : W) :
  let p := download guess_type self url out force validate in
  unlinked (trace h p w) = [] /\
  (transfers (trace h p w) = [] \/
   exists u, download_url_of url = Returned (Some u) /\
             transfers (trace h p w) = [(u, path_str out)]) /\
  (forall mime,
      fst (run h p w) = Returned (true, "Download successful", mime) ->
      transfers (trace h p w) <> []).
Proof.
  intros p.
  destruct (download_trace_shape self url out force validate w) as [Hu Ht].
  split; [exact Hu |]. split; [exact Ht |].
  unfold p, download, _get_mime_type. explore h.
  all: unfold transfers; cbn -[append download_url_of path_str].
  all: intros mime Hd;
       first [discriminate | discriminate Hd | cbn [append] in Hd; discriminate Hd].
Qed.

Lemma extract_members_no_transfer (archive dest : Path) (filelist : list ZipInfo)
    (n : Z) (w : W) :
  transfers (trace h (extract_members archive dest filelist n) w) = [].
Proof.
  revert n w. induction filelist as [| file rest IH]; intros n w; [reflexivity |].
  red_prog. step h; [| reflexivity].
  change (existT ?P ?c ?r :: ?l)%list with ([existT P c r] ++ l)%list.
  rewrite transfers_app, IH. reflexivity.
Qed.

Lemma extract_no_transfer (self : GDriveDownloader) (archive dest : Path)
    (remove_archive : bool) (num_threads : Z) (w : W) :
  transfers (trace h (extract guess_type self archive dest remove_archive num_threads) w)
  = [].
Proof.
  unfold extract. explore h.
  all: rewrite ?trace_try_except, ?trace_bind, ?run_try_except, ?run_bind.
  all: try match goal with
       | |- context [run h (extract_members ?a ?d ?l ?n) ?w] =>
           pose proof (extract_members_no_transfer a d l n w) as Hloop;
           destruct (run h (extract_members a d l n) w) as [[? | ?] ?] eqn:Hrun
       end.
  all: explore h.
  all: repeat match goal with
       | |- context [(existT ?P ?c ?r :: ?l)%list] =>
           lazymatch l with
           | nil => fail
           | _ => change (existT P c r :: l)%list with ([existT P c r] ++ l)%list
           end
       end.
  all: rewrite ?transfers_app, ?Hloop; reflexivity.
Qed.

(** X13. [download_and_extract] touches no file of the caller's: the only
    path it ever deletes, and the only output it ever hands to the
    transfer, is its own temporary archive in the cache directory. *)
Theorem download_and_extract_own_archive_only (self : GDriveDownloader) (url : string)
    (extract_dir : Path) (keep_zip force : bool) (num_threads : Z) (w : W) :
  let p := download_and_extract guess_type self url extract_dir keep_zip force num_threads in
  let temp_zip := temp_zip_path self (fst (h TimeTime w)) in
  (forall q, In q (unlinked (trace h p w)) -> q = temp_zip) /\
  (forall u o, In (u, o) (transfers (trace h p w)) -> o = path_str temp_zip) /\
  (keep_zip = true ->
   fst (run h p w) = Returned (true, "Download and extraction completed successfully") ->
   unlinked (trace h p w) = []).
Proof.
  intros p temp_zip. unfold p, temp_zip, download_and_extract.
  cbn -[download extract append temp_zip_path unlinked transfers].
  destruct (h TimeTime w) as [now w0]. cbn in now. cbn [fst].
  rewrite run_bind, trace_bind.
  change (existT ?P ?c ?r :: ?l)%list with ([existT P c r] ++ l)%list.
  rewrite !unlinked_app, !transfers_app.
  destruct (download_trace_shape self url (temp_zip_path self now) force true w0)
    as (Hdu & Hdt).
  destruct (download_structured guess_type h w0 self url
              (temp_zip_path self now) force true) as (rd & wd & Hd & _).
  rewrite Hd, Hdu.
  destruct (extract_trace_shape guess_type h self (temp_zip_path self now) extract_dir
              (negb keep_zip) num_threads wd) as [Heu _].
  pose proof (extract_no_transfer self (temp_zip_path self now) extract_dir
                (negb keep_zip) num_threads wd) as Het.
  destruct (extract_structured guess_type h self (temp_zip_path self now) extract_dir
              (negb keep_zip) num_threads wd) as (re & we & He & _).
  rewrite He in Heu. cbn [fst] in Heu.
  destruct rd as [[[] message] mime_type];
    cbn -[download extract append temp_zip_path unlinked transfers].
  2: { unfold unlinked, transfers in *. cbn [flat_map projT1 app]. rewrite app_nil_r.
       split; [contradiction |]. split; [| discriminate].
       intros u o Hin. destruct Hdt as [Hdt | (u' & _ & Hdt)]; rewrite Hdt in Hin.
       - contradiction.
       - destruct Hin as [[= _ <-] | []]. reflexivity. }
  rewrite run_bind, trace_bind, He.
  assert (Hount : forall u o,
    In (u, o) (transfers (trace h (download guess_type self url (temp_zip_path self now)
                                     force true) w0)) ->
    o = path_str (temp_zip_path self now)).
  { intros u o Hin. destruct Hdt as [Hdt | (u' & _ & Hdt)]; rewrite Hdt in Hin.
    - contradiction.
    - destruct Hin as [[= _ <-] | []]. reflexivity. }
  set (tu := unlinked (trace h (extract guess_type self (temp_zip_path self now) extract_dir
                                  (negb keep_zip) num_threads) wd)) in *.
  set (td := transfers (trace h (download guess_type self url (temp_zip_path self now)
                                   force true) w0)) in *.
  destruct re as [[] message'];
    cbn -[download extract append temp_zip_path unlinked transfers].
  2: destruct (h (PathExists (temp_zip_path self now)) we) as [present w1];
     cbn in present; destruct present as [[] | e];
     cbn -[download extract append temp_zip_path unlinked transfers].
  2: destruct (h (PathUnlink (temp_zip_path self now)) w1) as [gone w2];
     cbn in gone; destruct gone as [[] | e];
     cbn -[download extract append temp_zip_path unlinked transfers].
  all: repeat match goal with
       | |- context [(existT ?P ?c ?r :: ?l)%list] =>
           lazymatch l with
           | nil => fail
           | _ => change (existT P c r :: l)%list with ([existT P c r] ++ l)%list
           end
       end.
  all: rewrite ?unlinked_app, ?transfers_app; fold tu td; rewrite ?Het.
  all: unfold unlinked, transfers; cbn [flat_map projT1 app]; rewrite ?app_nil_r.
  all: (split; [| split; [exact Hount |]]).
  all: try (intros Hk; rewrite Hk in Heu; cbn [negb] in Heu;
            destruct Heu as [[-> _] | [_ Hf]]; [| discriminate Hf]).
  all: try (intros Hf; first [discriminate Hf | cbn [append] in Hf; discriminate Hf]).
  all: try reflexivity.
  all: intros q Hin; rewrite ?in_app_iff in Hin.
  all: destruct Heu as [[Hz _] | [Hz _]]; rewrite Hz in Hin; cbn [In] in Hin.
  all: intuition congruence.
Qed.
End PipelineMore.

(** ** The temporary archive *)

Lemma append_inv_tail (a b s : string) : a ++ s = b ++ s -> a = b.
Proof.
  revert b. induction a as [| x a IH]; intros [| y b] H; simpl in H.
  - reflexivity.
  - apply (f_equal String.length) in H. simpl in H. rewrite length_append in H. lia.
  - apply (f_equal String.length) in H. simpl in H. rewrite length_append in H. lia.
  - injection H as -> H. f_equal. now apply IH.
Qed.

(** [str] prints different integers differently. *)
Lemma str_of_int_inj (a b : Z) : str_of_int a = str_of_int b -> a = b.
Proof.
  unfold str_of_int. intros H. apply DecimalZ.to_int_inj.
  assert (Hn : forall z, Z.to_int z <> Decimal.Pos Decimal.Nil /\
                         Z.to_int z <> Decimal.Neg Decimal.Nil).
  { intros [| p | p]; simpl; split; try discriminate;
      intros [= E]; now apply DecimalPos.Unsigned.to_uint_nonnil in E. }
  apply (f_equal NilZero.int_of_string) in H.
  rewrite !NilZero.isi in H by apply Hn. now injection H.
Qed.

(** X14. The temporary archive of [download_and_extract] is an entry of the
    cache directory whose name matches the pattern ["*.*"] of
    [cleanup_cache], so an archive left behind is within reach of the
    sweep. Calls at different whole seconds use different archives; calls
    within the same second share one. *)
Theorem temp_zip_path_in_cache (self : GDriveDownloader) (now : Z) :
  parent (temp_zip_path self now) = cache_dir self /\
  is_child (cache_dir self) (temp_zip_path self now) = true /\
  fnmatch "*.*" (name (temp_zip_path self now)) = true /\
  (forall now', temp_zip_path self now = temp_zip_path self now' <-> now = now').
Proof.
  unfold temp_zip_path, joinpath, parent, name.
  rewrite removelast_last, last_last.
  split; [reflexivity |]. split; [| split].
  - unfold is_child. destruct (cache_dir self ++ [_])%list eqn:E.
    + now destruct (cache_dir self).
    + rewrite <- E. unfold parent. rewrite removelast_last.
      now destruct (path_eq_dec (cache_dir self) (cache_dir self)).
  - rewrite fnmatch_star_dot_star.
    change ("temp_" ++ str_of_int now ++ ".zip")
      with ("temp_" ++ (str_of_int now ++ "." ++ "zip")).
    rewrite <- append_assoc. apply contains_middle.
  - intros now'. split; [| now intros ->].
    intros H. apply app_inv_head in H. injection H as H.
    apply append_inv_tail in H. now apply str_of_int_inj.
Qed.

(** ** The archive-type checks inside [download_and_extract] *)

Section NameChecks.
Variable guess_type : string -> option string.
Context {W : Type}.
Variable h : Handler resp W.

Lemma probes_app (a b : list (Event resp)) :
  probes (a ++ b)%list = (probes a ++ probes b)%list.
Proof. apply flat_map_app. Qed.

Lemma is_compressed_file_truthy (mime : option string) :
  _is_compressed_file mime = true -> truthy mime = true.
Proof. unfold _is_compressed_file. now destruct (truthy mime). Qed.

(** Splits the events in front of a sub-trace off, one by one. *)
Ltac singletons :=
  repeat match goal with
         | |- context [(existT ?P ?c ?r :: ?l)%list] =>
             lazymatch l with
             | nil => fail
             | _ => change (existT P c r :: l)%list with ([existT P c r] ++ l)%list
             end
         end.

(** When the name of the destination is of an archive type, [download]
    needs no header probe and its archive check cannot fail. *)
Lemma download_named_archive (self : GDriveDownloader) (url : string) (out : Path)
    (force validate : bool) (w : W) :
  _is_compressed_file (guess_type (path_str out)) = true ->
  let p := download guess_type self url out force validate in
  probes (trace h p w) = [] /\
  forall mime, fst (run h p w)
               <> Returned (false, "Downloaded file is not a compressed archive", mime).
Proof.
  intros Hname p. pose proof (is_compressed_file_truthy _ Hname) as Htrue.
  unfold p, download, _get_mime_type. red_prog. rewrite Htrue. explore h.
  all: try (rewrite Hname in *; rewrite andb_false_r in *; discriminate).
  all: split; [reflexivity |].
  all: intros mime Hd; first [discriminate Hd | cbn [append] in Hd; discriminate Hd].
Qed.

Lemma extract_members_no_probe (archive dest : Path) (filelist : list ZipInfo)
    (n : Z) (w : W) :
  probes (trace h (extract_members archive dest filelist n) w) = [].
Proof.
  revert n w. induction filelist as [| file rest IH]; intros n w; [reflexivity |].
  red_prog. step h; [| reflexivity].
  singletons. rewrite probes_app, IH. reflexivity.
Qed.

(** [extract] never probes, and when the name of the archive is of an
    archive type its name check cannot fail. *)
Lemma extract_named_archive (self : GDriveDownloader) (archive dest : Path)
    (remove_archive : bool) (num_threads : Z) (w : W) :
  let p := extract guess_type self archive dest remove_archive num_threads in
  probes (trace h p w) = [] /\
  (_is_compressed_file (guess_type (path_str archive)) = true ->
   fst (run h p w) <> Returned (false, "File is not a compressed archive")).
Proof.
  intros p. unfold p, extract. explore h.
  all: rewrite ?trace_try_except, ?trace_bind, ?run_try_except, ?run_bind.
  all: try match goal with
       | |- context [run h (extract_members ?a ?d ?l ?n) ?w] =>
           pose proof (extract_members_no_probe a d l n w) as Hloop;
           destruct (run h (extract_members a d l n) w) as [[? | ?] ?] eqn:Hrun
       end.
  all: explore h.
  all: singletons; rewrite ?probes_app, ?Hloop.
  all: split; [reflexivity |].
  all: intros Hname Hd;
       first [discriminate Hd | cbn [append] in Hd; discriminate Hd
             | rewrite Hname in *; discriminate].
Qed.

(** X15. Inside [download_and_extract] the two archive-type checks look at
    the name of the temporary archive, [temp_<seconds>.zip], not at what
    was downloaded. When [mimetypes] classifies that name as an archive
    type, no header probe is ever sent, and neither "Downloaded file is not
    a compressed archive" nor "File is not a compressed archive" can be the
    reason of a failure. *)
Theorem download_and_extract_checks_name_only (self : GDriveDownloader) (url : string)
    (extract_dir : Path) (keep_zip force : bool) (num_threads : Z) (w : W) :
  _is_compressed_file
    (guess_type (path_str (temp_zip_path self (fst (h TimeTime w))))) = true ->
  let p := download_and_extract guess_type self url extract_dir keep_zip force num_threads in
  probes (trace h p w) = [] /\
  fst (run h p w)
    <> Returned (false, "Download phase failed: Downloaded file is not a compressed archive") /\
  fst (run h p w)
    <> Returned (false, "Extraction phase failed: File is not a compressed archive").
Proof.
  intros Hname p. unfold p, download_and_extract.
  cbn -[download extract append temp_zip_path probes].
  destruct (h TimeTime w) as [now w0]. cbn in now. cbn [fst] in Hname.
  rewrite run_bind, trace_bind. singletons. rewrite !probes_app.
  destruct (download_named_archive self url (temp_zip_path self now) force true w0 Hname)
    as [Hdp Hdm].
  destruct (download_structured guess_type h w0 self url
              (temp_zip_path self now) force true) as (rd & wd & Hd & _).
  rewrite Hd in Hdm |- *. cbn [fst] in Hdm. rewrite Hdp.
  destruct (extract_named_archive self (temp_zip_path self now) extract_dir
              (negb keep_zip) num_threads wd) as [Hep Hem].
  specialize (Hem Hname).
  destruct (extract_structured guess_type h self (temp_zip_path self now) extract_dir
              (negb keep_zip) num_threads wd) as (re & we & He & _).
  rewrite He in Hem. cbn [fst] in Hem.
  destruct rd as [[[] message] mime_type];
    cbn -[download extract append temp_zip_path probes].
  2: { split; [reflexivity |]. split; [| discriminate].
       intros [= Hm]. apply (Hdm mime_type). now rewrite Hm. }
  rewrite run_bind, trace_bind, He.
  destruct re as [[] message'];
    cbn -[download extract append temp_zip_path probes].
  2: destruct (h (PathExists (temp_zip_path self now)) we) as [present w1];
     cbn in present; destruct present as [[] | e];
     cbn -[download extract append temp_zip_path probes].
  2: destruct (h (PathUnlink (temp_zip_path self now)) w1) as [gone w2];
     cbn in gone; destruct gone as [[] | e];
     cbn -[download extract append temp_zip_path probes].
  all: singletons; rewrite ?probes_app, ?Hep.
  all: split; [reflexivity |].
  all: split; try discriminate.
  all: intros [= Hm]; apply Hem; now rewrite Hm.
Qed.
End NameChecks.

(** X15, witness: the temporary archive [cache/temp_1700000000.zip]. *)
Lemma download_and_extract_checks_name_only_witness :
  probes (trace (simfs (transfer_writing 100 Garbage false))
                (download_and_extract mimetypes_guess_type downloader
                   "https://example.com/page.html" ["data"] false false 4)
                fresh_cache) = [].
Proof.
  refine (proj1 (download_and_extract_checks_name_only mimetypes_guess_type
                   (simfs (transfer_writing 100 Garbage false)) downloader
                   "https://example.com/page.html" ["data"] false false 4 fresh_cache _)).
  vm_compute. reflexivity.
Defined.

(** ** More on [cleanup_cache] *)

Section CleanupMore.
Context {W : Type}.
Variable h : Handler resp W.


(** The sweep asks to delete exactly the entries whose [stat] showed them
    old, all of them taken from the listing; nothing follows a call that
    raised. *)
Lemma sweep_shape (now days : Z) (files : list Path) (w : W) :
  unlinked (trace h (sweep now days files) w)
    = old_stats now days (trace h (sweep now days files) w) /\
  incl (unlinked (trace h (sweep now days files) w)) files /\
  after_raise (trace h (sweep now days files) w) = [] /\
  first_raised (trace h (sweep now days files) w)
    = failure (fst (run h (sweep now days files) w)).
Proof.
  revert w. induction files as [| f rest IH]; intros w.
  - repeat split. intros q [].
  - explore h.
    all: try match goal with
         | |- context [trace h (sweep _ _ _) ?v] =>
             destruct (IH v) as (Hu & Hi & Ha & Hf)
         end.
    all: unfold unlinked, old_stats in *; cbn [flat_map projT1 app].
    all: rewrite ?Heqb; cbn [app].
    all: split; [now rewrite ?Hu |].
    all: split; [| auto].
    all: try (intros q [<- | Hq]; [now left | right; now apply Hi]).
    all: try (intros q [<- | []]; now left).
    all: try (intros q Hq; right; now apply Hi).
    all: try (intros q []).
Qed.

Lemma first_raised_app (a b : list (Event resp)) :
  first_raised (a ++ b)%list =
  match first_raised a with
  | Some e => Some e
  | None => first_raised b
  end.
Proof.
  induction a as [| ev a IH]; [reflexivity |].
  cbn [app first_raised]. now destruct (raised ev).
Qed.

Lemma after_raise_app (a b : list (Event resp)) :
  after_raise (a ++ b)%list =
  match first_raised a with
  | Some _ => (after_raise a ++ b)%list
  | None => after_raise b
  end.
Proof.
  induction a as [| ev a IH]; [reflexivity |].
  cbn [app first_raised after_raise]. now destruct (raised ev).
Qed.

(** X16. [cleanup_cache] wraps the whole sweep in one [try]: once a call
    raises, no further entry is examined or removed. All that follows the
    call that raised is the "Cache cleanup failed" log line. *)
Theorem cleanup_cache_stops_at_first_error (self : GDriveDownloader) (max_age_days : Z)
    (w : W) :
  let tr := trace h (cleanup_cache self max_age_days) w in
  after_raise tr =
  match first_raised tr with
  | None => []
  | Some e => [existT resp (Log ERROR ("Cache cleanup failed: " ++ exn_text e)) tt]
  end.
Proof.
  intros tr. unfold tr, cleanup_cache. red_prog. step h. step h; [| step h; reflexivity].
  rewrite trace_try_except.
  destruct (sweep_shape r max_age_days a w1) as (_ & _ & Ha & Hf).
  destruct (run h (sweep r max_age_days a) w1) as [[[] | e] w2] eqn:Hrun;
    cbn [fst failure] in Hf; red_prog.
  - rewrite app_nil_r, Hf. exact Ha.
  - step h. rewrite after_raise_app, first_raised_app, Hf, Ha. reflexivity.
Qed.

End CleanupMore.

(** ** More on [clear_memory] and [safe_to_device] *)

Section MemoryMore.
Context {W : Type}.
Variable h : Handler torch_resp W.



(** X20. For either value of [non_blocking]: [safe_to_device] tries the
    move with the caller's flag and at most once more, blocking. A
    [RuntimeError] leaves it only after both tries raised one, and then it
    is a fresh error naming the first failure; any other exception is one a
    [tensor.to] call raised, passed on as it is. A tensor returned is the
    one the last try returned. *)
Theorem safe_to_device_outcomes (tensor : Tensor) (device : Device) (non_blocking : bool)
    (w : W) :
  let p := safe_to_device tensor device non_blocking in
  let tr := trace h p w in
  (attempts tr = [non_blocking] \/ attempts tr = [non_blocking; false]) /\
  match fst (run h p w) with
  | Returned moved =>
      In (existT torch_resp (TensorTo tensor device (last (attempts tr) non_blocking))
            (Returned moved)) tr
  | Raised e =>
      if is_RuntimeError e then
        attempts tr = [non_blocking; false] /\
        exists e1,
          fst (h (TensorTo tensor device non_blocking) w) = Raised e1 /\
          is_RuntimeError e1 = true /\
          e = mkExn RuntimeError
                ("Failed to move tensor to device even after memory cleanup: "
                 ++ exn_text e1)
      else
        In (existT torch_resp (TensorTo tensor device (last (attempts tr) non_blocking))
              (Raised e)) tr
  end.
Proof.
  intros p tr. unfold tr, p, safe_to_device.
  cbn -[clear_memory append attempts last].
  destruct (h (TensorTo tensor device non_blocking) w) as [first w1]. cbn in first.
  destruct first as [moved | e]; cbn -[clear_memory append attempts last].
  { split; [left; reflexivity | now left]. }
  destruct (is_RuntimeError e) eqn:He; cbn -[clear_memory append attempts last].
  2: { rewrite He. split; [left; reflexivity | now left]. }
  rewrite trace_bind, run_bind.
  destruct (clear_memory_returns h None w1) as [w2 Hclear].
  destruct (clear_memory_trace h w1) as [Hquiet _].
  rewrite Hclear. cbn -[clear_memory append attempts last].
  destruct (h (TensorTo tensor device false) w2) as [second w3]. cbn in second.
  assert (Htries : forall r1 r2,
    attempts (existT torch_resp (TensorTo tensor device non_blocking) r1
                :: trace h (clear_memory None) w1
                ++ [existT torch_resp (TensorTo tensor device false) r2])%list
    = [non_blocking; false]).
  { intros r1 r2. change (?x :: ?l ++ ?m)%list with ([x] ++ l ++ m)%list.
    rewrite !attempts_app, Hquiet. reflexivity. }
  destruct second as [moved | e2]; cbn -[clear_memory append attempts last].
  - rewrite Htries. split; [now right |]. cbn [last].
    right. apply in_or_app. right. now left.
  - destruct (is_RuntimeError e2) eqn:He2; cbn -[clear_memory append attempts last];
      rewrite ?app_nil_r, Htries.
    + split; [now right |]. split; [reflexivity |]. exists e. auto.
    + rewrite He2. split; [now right |]. cbn [last].
      right. apply in_or_app. right. now left.
Qed.
End MemoryMore.

(** ** What "Download successful" stands for *)

Section DownloadSuccess.
Variable guess_type : string -> option string.
Context {W : Type}.
Variable h : Handler resp W.

(** X21. "Download successful" is reported only after the transfer came
    back with an output name, the destination was then seen to exist, and
    its size was read and was not zero; with [validate_compression] the
    MIME type returned is moreover one of the archive types. *)
Theorem download_success_evidence (self : GDriveDownloader) (url : string) (out : Path)
    (force validate : bool) (w : W) (mime : option string) :
  let p := download guess_type self url out force validate in
  fst (run h p w) = Returned (true, "Download successful", mime) ->
  (exists u output,
      download_url_of url = Returned (Some u) /\
      output <> "" /\
      In (existT resp (GdownDownload u (path_str out)) (Returned (Some output)))
         (trace h p w)) /\
  In (existT resp (PathExists out) (Returned true)) (trace h p w) /\
  (exists st,
      st_size st <> 0%Z /\
      In (existT resp (PathStat out) (Returned st)) (trace h p w)) /\
  (validate = true -> _is_compressed_file mime = true).
Proof.
  intros p. unfold p, download, _get_mime_type. explore h.
  all: intros H; try discriminate H; try (cbn [append] in H; discriminate H).
  all: injection H as <-.
  all: match goal with
       | Ht : negb (truthy ?o) = false |- _ =>
           destruct o as [output |]; [| discriminate Ht];
           apply negb_false_iff in Ht; cbn [truthy] in Ht; apply negb_true_iff in Ht;
           apply String.eqb_neq in Ht
       end.
  all: match goal with
       | Hp : negb ?b = false |- context [PathExists _] =>
           destruct b; [clear Hp | discriminate Hp]
       end.
  all: match goal with
       | Hs : (st_size _ =? 0)%Z = false |- _ => apply Z.eqb_neq in Hs
       end.
  all: split; [do 2 eexists; split; [reflexivity |]; split; [eassumption |]; auto 10 |].
  all: split; [auto 10 |].
  all: split; [eexists; split; [eassumption |]; auto 10 |].
  all: intros ->; cbn [andb] in *;
       match goal with
       | Hv : negb _ = false |- _ => now apply negb_false_iff in Hv
       end.
Qed.
End DownloadSuccess.

(** X21, witness: a forced download that leaves a 100-byte archive. *)
Lemma download_success_evidence_witness :
  In (existT resp (PathExists ["data"; "a.zip"]) (Returned true))
     (trace (simfs (transfer_writing 100 (ZipArchive []) false))
            (download mimetypes_guess_type downloader "https://example.com/a.zip"
                      ["data"; "a.zip"] true true)
            fresh_cache).
Proof.
  refine (proj1 (proj2 (download_success_evidence mimetypes_guess_type
                          (simfs (transfer_writing 100 (ZipArchive []) false)) downloader
                          "https://example.com/a.zip" ["data"; "a.zip"] true true
                          fresh_cache (Some "application/zip") _))).
  vm_compute. reflexivity.
Defined.
